(** * NanoVNASaver marker widget: resolution of a marker on swept data

    A shallow embedding of [NanoVNASaver/Marker/Widget.py] (class [Marker])
    and of the parts of [NanoVNASaver/Marker/Settings.py] that drive it.

    Conventions of the embedding.
    - A Python [int] is a [Z]; a Python [float] is a binary64 [float]
      ([PrimFloat]).
    - The only float arithmetic inside [findLocation] is
      [self.frequency + lower_stepsize/2 < min_freq] and its mirror image.
      The model evaluates the two comparisons exactly, over the rationals
      [Q]. Python computes them in binary64; the two agree, and nothing
      overflows, when the target and the samples are below 2^51 in
      magnitude ([exact_range], [out_of_bounds_binary64]), far above
      any frequency in Hz. Statements that depend on the outcome of the
      comparison carry that range as a hypothesis.
    - A method of [Marker] is a computation in the monad [M]: it receives
      the attributes of [self], may raise, and leaves the attributes as they
      were when it returned or raised.
    - [RFTools] and [Formatting] are other modules of the program; the
      functions that [Marker] calls are the members of two classes, and the
      methods that call them are stated for every instance. *)

From Stdlib Require Import ZArith QArith Lia PrimFloat.
From Stdlib Require FloatOps SpecFloat Uint63.
From stdpp Require Import base option list gmap strings.

Set Warnings "-inexact-float".
Local Open Scope Z_scope.

(** ** Python values *)

Inductive exn : Type :=
| IndexError.

Inductive result (A : Type) : Type :=
| Ok (a : A)
| Raise (e : exn).
Arguments Ok {A} a.
Arguments Raise {A} e.

(** [l[i]] on a Python list: a negative index counts from the end, anything
    outside [-len l .. len l - 1] raises [IndexError]. *)
Definition getitem {A : Type} (l : list A) (i : Z) : result A :=
  let n := Z.of_nat (length l) in
  let j := if i <? 0 then i + n else i in
  if (0 <=? j) && (j <? n)
  then match l !! Z.to_nat j with
       | Some x => Ok x
       | None => Raise IndexError
       end
  else Raise IndexError.

(** Strict comparison of rationals, as a boolean. *)
Definition Qlt_bool (x y : Q) : bool := negb (Qle_bool y x).

(** [RFTools.Datapoint]: a named tuple [(freq: int, re: float, im: float)]. *)
Record Datapoint : Type := mkDatapoint {
  freq : Z;
  re : float;
  im : float
}.

(** ** The fields a marker can display *)

Record Field : Type := mkField {
  fieldname : string;
  name : string;
  description : string;
  default_active : bool
}.

Definition LABELS : list Field :=
  [ mkField "actualfreq" "Frequency" "Actual frequency" true;
    mkField "impedance" "Impedance" "Impedance" true;
    mkField "admittance" "Admittance" "Admittance" false;
    mkField "serr" "Series R" "Series R" false;
    mkField "serlc" "Series X" "Series equivalent L/C" false;
    mkField "serl" "Series L" "Series equivalent L" true;
    mkField "serc" "Series C" "Series equivalent C" true;
    mkField "parr" "Parallel R" "Parallel R" true;
    mkField "parlc" "Parallel X" "Parallel equivalent L/C" true;
    mkField "parl" "Parallel L" "Parallel equivalent L" false;
    mkField "parc" "Parallel C" "Parallel equivalent C" false;
    mkField "vswr" "VSWR" "VSWR" true;
    mkField "returnloss" "Return loss" "Return loss" true;
    mkField "s11q" "Quality factor" "S11 Quality factor" true;
    mkField "s11phase" "S11 Phase" "S11 Phase" true;
    mkField "s11groupdelay" "S11 Group Delay" "S11 Group Delay" false;
    mkField "s21gain" "S21 Gain" "S21 Gain" true;
    mkField "s21phase" "S21 Phase" "S21 Phase" true;
    mkField "s21groupdelay" "S21 Group Delay" "S21 Group Delay" false ]%string.

Definition default_field_names : list string :=
  fieldname <$> filter (fun l => default_active l = true) LABELS.

(** ** The attributes of a marker *)

(** The two attributes of the frequency input widget that [findLocation]
    writes. *)
Record FrequencyInput : Type := mkFrequencyInput {
  nextFrequency : Z;
  previousFrequency : Z
}.

(** The attributes that [findLocation], [updateLabels] and [setFrequency]
    read or write. [label] is the dictionary from field name to the text
    shown for it. *)
Record Marker : Type := mkMarker {
  frequency : Z;
  location : Z;
  frequencyInput : FrequencyInput;
  returnloss_is_positive : bool;
  label : gmap string string
}.

(** ** Methods as state-and-exception computations *)

Definition M (A : Type) : Type := Marker -> result A * Marker.

#[export] Instance M_ret : MRet M := fun A a self => (Ok a, self).
#[export] Instance M_bind : MBind M := fun A B k c self =>
  match c self with
  | (Ok a, self') => k a self'
  | (Raise e, self') => (Raise e, self')
  end.

(** An expression that may raise, evaluated inside a method. *)
Definition lift {A : Type} (r : result A) : M A := fun self => (r, self).

Definition get_frequency : M Z := fun self => (Ok (frequency self), self).
Definition get_location : M Z := fun self => (Ok (location self), self).

Definition set_location (v : Z) : M unit := fun self =>
  (Ok tt, mkMarker (frequency self) v (frequencyInput self)
                   (returnloss_is_positive self) (label self)).

Definition set_nextFrequency (v : Z) : M unit := fun self =>
  (Ok tt, mkMarker (frequency self) (location self)
                   (mkFrequencyInput v (previousFrequency (frequencyInput self)))
                   (returnloss_is_positive self) (label self)).

Definition set_previousFrequency (v : Z) : M unit := fun self =>
  (Ok tt, mkMarker (frequency self) (location self)
                   (mkFrequencyInput (nextFrequency (frequencyInput self)) v)
                   (returnloss_is_positive self) (label self)).

(** [self.label[key].setText(text)] *)
Definition setText (key text : string) : M unit := fun self =>
  (Ok tt, mkMarker (frequency self) (location self) (frequencyInput self)
                   (returnloss_is_positive self) (<[key := text]> (label self))).

(** ** [Marker.findLocation] *)

(** The [for i, item in enumerate(data)] loop of [findLocation], started at
    position [i] with the running [min_distance]: [Some (i, item)] is the
    position at which the [else] branch is taken (the loop returns there),
    [None] says that the loop ran to the end of [data]. *)
Fixpoint scan (frequency : Z) (items : list Datapoint) (i min_distance : Z)
  : option (Z * Datapoint) :=
  match items with
  | [] => None
  | item :: rest =>
      if Z.abs (freq item - frequency) <=? min_distance
      then scan frequency rest (i + 1) (Z.abs (freq item - frequency))
      else Some (i, item)
  end.

Definition findLocation (data : list Datapoint) : M unit :=
  set_location (-1) ;;
  set_nextFrequency (-1) ;;
  set_previousFrequency (-1) ;;
  frequency ← get_frequency;
  if frequency =? 0 then mret tt else
  let datasize := Z.of_nat (length data) in
  if datasize =? 0 then mret tt else
  d_first ← lift (getitem data 0);
  let min_freq := freq d_first in
  d_last ← lift (getitem data (-1));
  let max_freq := freq d_last in
  d1 ← lift (getitem data 1);
  d0 ← lift (getitem data 0);
  let lower_stepsize := freq d1 - freq d0 in
  dm1 ← lift (getitem data (-1));
  dm2 ← lift (getitem data (-2));
  let upper_stepsize := freq dm1 - freq dm2 in
  if Qlt_bool (inject_Z frequency + inject_Z lower_stepsize / 2) (inject_Z min_freq)
     || Qlt_bool (inject_Z max_freq) (inject_Z frequency - inject_Z upper_stepsize / 2)
  then mret tt else
  match scan frequency data 0 max_freq with
  | Some (i, item) =>
      set_location (i - 1) ;;
      (if i <? datasize then set_nextFrequency (freq item) else mret tt) ;;
      (if 0 <=? i - 2
       then d ← lift (getitem data (i - 2)); set_previousFrequency (freq d)
       else mret tt)
  | None =>
      set_location (datasize - 1) ;;
      d ← lift (getitem data (-2));
      set_previousFrequency (freq d)
  end.

(** The attributes of a marker as [__init__] leaves them, for an initial
    frequency already parsed: [location] and [returnloss_is_positive] are
    the class defaults, every field of [LABELS] has an empty label. The two
    attributes of the frequency input are taken to start at [-1], the value
    [findLocation] resets them to. *)
Definition new_marker (frequency : Z) : Marker :=
  mkMarker frequency (-1) (mkFrequencyInput (-1) (-1)) false
           (list_to_map ((fun l => (fieldname l, ""%string)) <$> LABELS)).

(** The example data of the settings window
    ([MarkerSettingsWindow.exampleData11], [exampleData21]). *)
Definition exampleData11 : list Datapoint :=
  [ mkDatapoint 123000000 0.89 (-0.11);
    mkDatapoint 123500000 0.9 (-0.1);
    mkDatapoint 124000000 0.91 (-0.95) ]%float.

Definition exampleData21 : list Datapoint :=
  [ mkDatapoint 123000000 (-0.25) 0.49;
    mkDatapoint 123456000 (-0.3) 0.5;
    mkDatapoint 124000000 (-0.2) 0.5 ]%float.

(** ** The collaborators of [updateLabels] and [setFrequency]

    [NanoVNASaver.RFTools] and [NanoVNASaver.Formatting] are modules of the
    program that this development does not embed. Their functions are taken
    as they are called: a method or property of [Datapoint] takes the data
    point, a formatter returns the text of a label. They are total
    functions here: a call that raises inside them is outside the model. *)

(** A Python [complex]. *)
Record complex : Type := mkComplex {
  real : float;
  imag : float
}.

Class RFTools : Type := {
  parseFrequency : string -> Z;
  impedance : Datapoint -> complex;
  vswr : Datapoint -> float;
  phase : Datapoint -> float;
  gain : Datapoint -> float;
  qFactor : Datapoint -> float;
  impedance_to_capacitance : complex -> Z -> float;
  impedance_to_inductance : complex -> Z -> float;
  serial_to_parallel : complex -> complex;
  groupDelay : list Datapoint -> Z -> float
}.

(** [format_gain] is called with and without its second argument. *)
Class Formatting : Type := {
  format_frequency : Z -> string;
  format_capacitance : float -> string;
  format_inductance : float -> string;
  format_complex_imp : complex -> string;
  format_resistance : float -> string;
  format_vswr : float -> string;
  format_phase : float -> string;
  format_q_factor : float -> string;
  format_gain : float -> option bool -> string;
  format_group_delay : float -> string
}.

Definition get_returnloss_is_positive : M bool :=
  fun self => (Ok (returnloss_is_positive self), self).

(** ** [Marker.resetLabels] *)

Definition resetLabels : M unit :=
  setText "actualfreq" "" ;;
  setText "impedance" "" ;;
  setText "admittance" "" ;;
  setText "parr" "" ;;
  setText "parlc" "" ;;
  setText "parl" "" ;;
  setText "parc" "" ;;
  setText "serlc" "" ;;
  setText "serr" "" ;;
  setText "serl" "" ;;
  setText "serc" "" ;;
  setText "vswr" "" ;;
  setText "returnloss" "" ;;
  setText "s21gain" "" ;;
  setText "s11phase" "" ;;
  setText "s21phase" "" ;;
  setText "s11groupdelay" "" ;;
  setText "s21groupdelay" "" ;;
  setText "s11q" "".

Section Labels.
Context `{RFTools} `{Formatting}.

(** ** [Marker.updateLabels] *)

Definition updateLabels (s11data s21data : list Datapoint) : M unit :=
  location ← get_location;
  if location =? -1 then mret tt else
  s11 ← lift (getitem s11data location);
  let imp := impedance s11 in
  let cap_str :=
    format_capacitance (impedance_to_capacitance imp (freq s11)) in
  let ind_str :=
    format_inductance (impedance_to_inductance imp (freq s11)) in
  let imp_p := serial_to_parallel imp in
  let cap_p_str :=
    format_capacitance (impedance_to_capacitance imp_p (freq s11)) in
  let ind_p_str :=
    format_inductance (impedance_to_inductance imp_p (freq s11)) in
  let x_str := if (imag imp <? 0)%float then cap_str else ind_str in
  let x_p_str := if (imag imp_p <? 0)%float then cap_p_str else ind_p_str in
  setText "actualfreq" (format_frequency (freq s11)) ;;
  setText "impedance" (format_complex_imp imp) ;;
  setText "serr" (format_resistance (real imp)) ;;
  setText "serlc" x_str ;;
  setText "serc" cap_str ;;
  setText "serl" ind_str ;;
  setText "admittance" (format_complex_imp imp_p) ;;
  setText "parr" (format_resistance (real imp_p)) ;;
  setText "parlc" x_p_str ;;
  setText "parc" cap_p_str ;;
  setText "parl" ind_p_str ;;
  setText "vswr" (format_vswr (vswr s11)) ;;
  setText "s11phase" (format_phase (phase s11)) ;;
  setText "s11q" (format_q_factor (qFactor s11)) ;;
  positive ← get_returnloss_is_positive;
  setText "returnloss" (format_gain (gain s11) (Some positive)) ;;
  setText "s11groupdelay"
          (format_group_delay (groupDelay s11data location)) ;;
  if negb (Z.of_nat (length s21data) =? Z.of_nat (length s11data))
  then mret tt else
  s21 ← lift (getitem s21data location);
  setText "s21phase" (format_phase (phase s21)) ;;
  setText "s21gain" (format_gain (gain s21) None) ;;
  setText "s21groupdelay"
          (format_group_delay (groupDelay s21data location / 2)%float).

(** ** [Marker.setFrequency]

    [self.updated.emit(self)] hands the marker to the connected slots at
    once. The second component lists the notifications fired, each with
    the attributes of the marker as a slot finds them. *)
Definition setFrequency (frequency : string) (self : Marker)
  : Marker * list Marker :=
  let self := mkMarker (parseFrequency frequency) (location self)
                       (frequencyInput self) (returnloss_is_positive self)
                       (label self) in
  (self, [self]).

(** What the settings window does with its example marker
    ([MarkerSettingsWindow.updateMarker]) once a selection is set. *)
Definition refresh (data11 data21 : list Datapoint) : M unit :=
  findLocation data11 ;;
  resetLabels ;;
  updateLabels data11 data21.

End Labels.

(** ** The field selection of a marker

    [fieldSelection = []] in the body of [class Marker] binds one list
    object to the class. [__init__] assigns no [self.fieldSelection], so
    reading the attribute on an instance finds the list of the class until
    [setFieldSelection] has bound the attribute on that instance. The model
    keeps the list objects in a store and the attributes as references into
    it; markers and list objects are named by numbers. *)
Module FieldSelection.

Record world : Type := mkWorld {
  (** the list objects alive *)
  lists : gmap nat (list string);
  (** [Marker.fieldSelection], the attribute of the class *)
  Marker_fieldSelection : nat;
  (** [self.fieldSelection] of the instances on which it has been bound *)
  self_fieldSelection : gmap nat nat;
  (** the rows of [left_form] and [right_form] of each marker *)
  forms : gmap nat (list string * list string)
}.

(** The listing of a list object. *)
Definition deref (w : world) (r : nat) : list string :=
  default [] (lists w !! r).

(** The object that the expression [self.fieldSelection] evaluates to. *)
Definition fieldSelection (self : nat) (w : world) : nat :=
  default (Marker_fieldSelection w) (self_fieldSelection w !! self).

(** The field selection of a marker, as a listing. *)
Definition selection (self : nat) (w : world) : list string :=
  deref w (fieldSelection self w).

(** [field in self.fields]: the keys of [self.fields] are the field names
    of [LABELS]. *)
Definition in_fields (field : string) : bool :=
  bool_decide (field ∈ fieldname <$> LABELS).

(** The rows that [buildForm] adds to the left and to the right form;
    [math.ceil(len(self.fieldSelection)/2)] is [(len + 1) / 2]. *)
Definition rows (sel : list string) : list string * list string :=
  if (length sel <=? 3)%nat
  then (filter (fun f => in_fields f = true) sel, [])
  else
    let left_half := ((length sel + 1) / 2)%nat in
    (filter (fun f => in_fields f = true) (take left_half sel),
     filter (fun f => in_fields f = true) (drop left_half sel)).

Definition buildForm (self : nat) (w : world) : world :=
  mkWorld (lists w) (Marker_fieldSelection w) (self_fieldSelection w)
          (<[self := rows (selection self w)]> (forms w)).

(** The state once the body of [class Marker] has run. *)
Definition class_body : world :=
  mkWorld {[ 0%nat := [] ]} 0%nat ∅ ∅.

(** [Marker.__init__], as far as the field selection goes: it ends in
    [self.buildForm()] and binds nothing. *)
Definition init (self : nat) (w : world) : world := buildForm self w.

(** [Marker.setFieldSelection]: [fields.copy()] is a new list object. *)
Definition setFieldSelection (self fields : nat) (w : world) : world :=
  let copy := fresh (dom (lists w)) in
  buildForm self
    (mkWorld (<[copy := deref w fields]> (lists w)) (Marker_fieldSelection w)
             (<[self := copy]> (self_fieldSelection w)) (forms w)).

(** A caller changes the list object [r] in place ([append], [remove],
    ...): [f] is the change of its listing. *)
Definition mutate (r : nat) (f : list string -> list string) (w : world)
  : world :=
  mkWorld (alter f r (lists w)) (Marker_fieldSelection w)
          (self_fieldSelection w) (forms w).

(** Every reference points into the store, and an instance attribute is
    an object of that instance alone. *)
Record wf (w : world) : Prop := mkWf {
  wf_class : Marker_fieldSelection w ∈ dom (lists w);
  wf_self : forall a r, self_fieldSelection w !! a = Some r -> r ∈ dom (lists w);
  wf_own : forall a r, self_fieldSelection w !! a = Some r ->
                       r <> Marker_fieldSelection w;
  wf_apart : forall a b r, self_fieldSelection w !! a = Some r ->
                           self_fieldSelection w !! b = Some r -> a = b
}.

(** The field selections of the markers [a] and [b] are states of their
    own: the two attributes are different list objects; binding the one
    of [a], or changing it in place, leaves the selection of [b]; and
    changing the list given to [setFieldSelection] after the call leaves
    the selection of [a]. *)
Definition per_instance (a b : nat) (w : world) : Prop :=
  fieldSelection a w <> fieldSelection b w /\
  (forall fields : nat,
      selection b (setFieldSelection a fields w) = selection b w) /\
  (forall f : list string -> list string,
      selection b (mutate (fieldSelection a w) f w) = selection b w) /\
  (forall (fields : nat) (f : list string -> list string),
      selection a (mutate fields f (setFieldSelection a fields w))
      = selection a (setFieldSelection a fields w)).

End FieldSelection.

(** ** Notions used by the statements *)

(** [|item.freq - self.frequency|], the distance the loop compares. *)
Definition dist (f : Z) (d : Datapoint) : Z := Z.abs (freq d - f).

(** A sweep: the frequencies strictly increase with the index. *)
Definition ascending (data : list Datapoint) : Prop :=
  forall (i j : nat) (di dj : Datapoint),
    data !! i = Some di -> data !! j = Some dj -> (i < j)%nat ->
    freq di < freq dj.

(** The attributes after a call that resolved nothing: [location],
    [nextFrequency] and [previousFrequency] are all [-1], the rest is as it
    was. *)
Definition unresolved (self : Marker) : Marker :=
  mkMarker (frequency self) (-1) (mkFrequencyInput (-1) (-1))
           (returnloss_is_positive self) (label self).

(** The attributes after a call that set the three of them. *)
Definition resolved (self : Marker) (loc next prev : Z) : Marker :=
  mkMarker (frequency self) loc (mkFrequencyInput next prev)
           (returnloss_is_positive self) (label self).

(** The distances along [l] never exceed the one before, starting from the
    bound [m]. *)
Fixpoint nonincr (f m : Z) (l : list Datapoint) : Prop :=
  match l with
  | [] => True
  | d :: l' => dist f d <= m /\ nonincr f (dist f d) l'
  end.

(** The running minimum once [l] has been scanned from the bound [m]. *)
Fixpoint last_dist (f m : Z) (l : list Datapoint) : Z :=
  match l with
  | [] => m
  | d :: l' => last_dist f (dist f d) l'
  end.

(** The margins of the tolerant range: half the first and half the last
    step; 0 when there is no step. *)
Definition lower_margin (data : list Datapoint) : Q :=
  match data with
  | d0 :: d1 :: _ => inject_Z (freq d1 - freq d0) / 2
  | _ => 0
  end.

Definition upper_margin (data : list Datapoint) : Q :=
  match reverse data with
  | dl :: dp :: _ => inject_Z (freq dl - freq dp) / 2
  | _ => 0
  end.

(** [target_freq] lies in
    [[samples[0].freq - lower_margin, samples[-1].freq + upper_margin]]. *)
Definition in_tolerant_range (data : list Datapoint) (f : Z) : Prop :=
  exists d0 dl,
    head data = Some d0 /\ last data = Some dl /\
    (inject_Z (freq d0) - lower_margin data <= inject_Z f)%Q /\
    (inject_Z f <= inject_Z (freq dl) + upper_margin data)%Q.

(** The test of [findLocation] for a target outside the data, on the first
    two and the last two frequencies. *)
Definition out_of_bounds (f f0 f1 fp fl : Z) : bool :=
  Qlt_bool (inject_Z f + inject_Z (f1 - f0) / 2) (inject_Z f0)
  || Qlt_bool (inject_Z fl) (inject_Z f - inject_Z (fl - fp) / 2).

(** Resolution to a nearest sample with ties going to the earliest index,
    for one call of [findLocation]: on non-empty ascending [data] and a
    target in the tolerant range the call returns with [location] an index
    of least distance, and no earlier index is at that distance. *)
Definition nearest_earliest (data : list Datapoint) (self : Marker) : Prop :=
  data <> [] -> ascending data ->
  in_tolerant_range data (frequency self) ->
  exists (idx : nat) (d : Datapoint),
    (findLocation data self).1 = Ok tt /\
    location (findLocation data self).2 = Z.of_nat idx /\
    data !! idx = Some d /\
    (forall (j : nat) (dj : Datapoint),
        data !! j = Some dj ->
        dist (frequency self) d <= dist (frequency self) dj) /\
    (forall (j : nat) (dj : Datapoint),
        data !! j = Some dj ->
        dist (frequency self) dj = dist (frequency self) d ->
        (idx <= j)%nat).

(** A data point of which only the frequency matters. *)
Definition at_freq (f : Z) : Datapoint := mkDatapoint f 0 0.

(** The distance rises at position [i]: it is larger there than at the
    position before. *)
Definition rises (f : Z) (data : list Datapoint) (i : nat) : Prop :=
  exists a b,
    (0 < i)%nat /\ data !! (i - 1)%nat = Some a /\ data !! i = Some b /\
    dist f a < dist f b.

(** [i] is the first position at which the distance rises, or the length of
    [data] when it rises nowhere. *)
Definition first_rise (f : Z) (data : list Datapoint) (i : nat) : Prop :=
  (forall j : nat, (j < i)%nat -> ~ rises f data j) /\
  (rises f data i \/ i = length data).

(** The attributes of [self] with the labels replaced. *)
Definition with_label (self : Marker) (lbl : gmap string string) : Marker :=
  mkMarker (frequency self) (location self) (frequencyInput self)
           (returnloss_is_positive self) lbl.

(** ** Stand-ins for running the model

    The statements below hold for every [RFTools] and [Formatting]. To
    evaluate the model on concrete markers some instance is needed; these
    two are the simplest, and are not the program's. *)

(** A string of decimal digits is read as its number; any other string, also
    the empty one, as [-1]. *)
Fixpoint parse_digits (s : string) (acc : Z) : Z :=
  match s with
  | EmptyString => acc
  | String c s' =>
      let n := Z.of_nat (Ascii.nat_of_ascii c) in
      if (48 <=? n) && (n <=? 57)
      then parse_digits s' (10 * acc + (n - 48))
      else -1
  end.

Definition sample_RFTools : RFTools := {|
  parseFrequency s := match s with EmptyString => -1 | _ => parse_digits s 0 end;
  impedance d := mkComplex (re d) (im d);
  vswr d := re d;
  phase d := im d;
  gain d := re d;
  qFactor d := im d;
  impedance_to_capacitance z _ := imag z;
  impedance_to_inductance z _ := imag z;
  serial_to_parallel z := z;
  groupDelay _ _ := 1%float
|}.

Definition sample_Formatting : Formatting := {|
  format_frequency _ := "frequency";
  format_capacitance _ := "capacitance";
  format_inductance _ := "inductance";
  format_complex_imp _ := "complex";
  format_resistance _ := "resistance";
  format_vswr _ := "vswr";
  format_phase _ := "phase";
  format_q_factor _ := "q";
  format_gain _ _ := "gain";
  format_group_delay _ := "delay"
|}%string.

(** Every notification that [setFrequency] fires finds the marker resolved
    and labelled for its frequency on the data [data11], [data21]:
    resolving and labelling it again changes nothing. *)
Definition notified_up_to_date `{RFTools} `{Formatting}
    (frequency : string) (self : Marker) (data11 data21 : list Datapoint)
  : Prop :=
  forall n : Marker,
    n ∈ (setFrequency frequency self).2 ->
    refresh data11 data21 n = (Ok tt, n).

(** The frequency at position [i] of [data], and [-1] where there is no
    such position: the value [findLocation] leaves for a neighbour that
    does not exist. *)
Definition freq_at (data : list Datapoint) (i : Z) : Z :=
  if 0 <=? i then from_option freq (-1) (data !! Z.to_nat i) else -1.

(** ** The settings window

    [MarkerSettingsWindow] of [NanoVNASaver/Marker/Settings.py], as far as
    the field selection goes. Every assignment to [savedFieldSelection] and
    [currentFieldSelection] binds a list of its own ([.copy()], [[]],
    [default_field_names()]), the markers and the stored settings keep
    copies, and only [currentFieldSelection] is changed in place: no list
    is reachable under two names, so the attributes hold listings. Colours
    and layout are left out. *)
Module Settings.

(** A row of the [QStandardItemModel]: the text shown, the data (a field
    name) and whether the box is ticked. *)
Record QStandardItem : Type := mkItem {
  text : string;
  data : string;
  checkState : bool
}.

(** What a method of the window can raise: [ValueError], or whatever a
    method of the example marker raised. *)
Inductive raised : Type :=
| ValueError
| FromMarker (e : exn).

Record window : Type := mkWindow {
  savedFieldSelection : list string;
  currentFieldSelection : list string;
  model : list QStandardItem;
  (** the attributes and the field selection of [exampleMarker] *)
  exampleMarker : Marker;
  exampleMarker_fieldSelection : list string;
  (** the field selections of [app.markers] *)
  markers : list (list string);
  (** the value of [app.settings] under ["MarkerFields"], once set *)
  MarkerFields : option (list string);
  closed : bool
}.

Definition set_current (l : list string) (w : window) : window :=
  mkWindow (savedFieldSelection w) l (model w) (exampleMarker w)
           (exampleMarker_fieldSelection w) (markers w) (MarkerFields w)
           (closed w).

Definition set_model (m : list QStandardItem) (w : window) : window :=
  mkWindow (savedFieldSelection w) (currentFieldSelection w) m
           (exampleMarker w) (exampleMarker_fieldSelection w) (markers w)
           (MarkerFields w) (closed w).

(** The components of a Python value, for unpacking. *)
Inductive value : Type :=
| Str (s : string)
| Bool (b : bool).

(** A [Field] is a named tuple of four components. *)
Definition as_tuple (l : Field) : list value :=
  [Str (fieldname l); Str (name l); Str (description l);
   Bool (default_active l)].

(** [a, b, c = t] raises [ValueError] unless [t] has three components. *)
Definition unpack3 (t : list value) : option (value * value * value) :=
  match t with
  | [a; b; c] => Some (a, b, c)
  | _ => None
  end.

(** The text of a value used as one. *)
Definition as_str (v : value) : string :=
  match v with
  | Str s => s
  | Bool _ => ""
  end.

(** The loop of [resetModel], [for fieldname, name, default in LABELS],
    appending to the rows of [self.model]. *)
Fixpoint resetModel_loop (labels : list Field) (current : list string)
         (rows : list QStandardItem) : option raised * list QStandardItem :=
  match labels with
  | [] => (None, rows)
  | l :: rest =>
      match unpack3 (as_tuple l) with
      | None => (Some ValueError, rows)
      | Some (fieldname, name, default) =>
          let item := mkItem (as_str name) (as_str fieldname)
                             (bool_decide (as_str fieldname ∈ current)) in
          resetModel_loop rest current (rows ++ [item])
      end
  end.

Definition resetModel (w : window) : option raised * window :=
  let '(r, rows) := resetModel_loop LABELS (currentFieldSelection w) [] in
  (r, set_model rows w).

(** The rows that [__init__] builds: [for l in LABELS], with the
    description as text. *)
Definition build_model (current : list string) : list QStandardItem :=
  (fun l => mkItem (description l) (fieldname l)
                   (bool_decide (fieldname l ∈ current))) <$> LABELS.

(** The loop of [updateField] over the rows: the data of every ticked row
    is appended. *)
Fixpoint checked_data (rows : list QStandardItem) (acc : list string)
  : list string :=
  match rows with
  | [] => acc
  | row :: rest =>
      checked_data rest (if checkState row then acc ++ [data row] else acc)
  end.

(** [list.remove(x)]: the first occurrence goes. *)
Fixpoint remove_first (x : string) (l : list string) : list string :=
  match l with
  | [] => []
  | y :: l' => if bool_decide (y = x) then l' else y :: remove_first x l'
  end.

Section Window.
Context `{RFTools} `{Formatting}.

(** [updateMarker]: the example marker gets a copy of the current
    selection and is resolved and labelled on the example data. *)
Definition updateMarker (w : window) : option raised * window :=
  let '(r, marker) := refresh exampleData11 exampleData21 (exampleMarker w) in
  (match r with Ok _ => None | Raise e => Some (FromMarker e) end,
   mkWindow (savedFieldSelection w) (currentFieldSelection w) (model w)
            marker (currentFieldSelection w) (markers w) (MarkerFields w)
            (closed w)).

(** [updateField], the slot of [model.itemChanged]. *)
Definition updateField (field : QStandardItem) (w : window)
  : option raised * window :=
  let w :=
    if checkState field
    then if bool_decide (data field ∈ currentFieldSelection w)
         then w
         else set_current (checked_data (model w) []) w
    else if bool_decide (data field ∈ currentFieldSelection w)
         then set_current (remove_first (data field) (currentFieldSelection w)) w
         else w in
  updateMarker w.

(** The user ticks or unticks the box of row [i]: Qt changes the check
    state of the item and hands the item to [updateField]. *)
Definition itemChanged (i : nat) (w : window) : option raised * window :=
  match model w !! i with
  | None => (None, w)
  | Some row =>
      let row := mkItem (text row) (data row) (negb (checkState row)) in
      updateField row (set_model (<[i := row]> (model w)) w)
  end.

Definition applyButtonClick (w : window) : option raised * window :=
  let saved := currentFieldSelection w in
  (None,
   mkWindow saved (currentFieldSelection w) (model w) (exampleMarker w)
            (exampleMarker_fieldSelection w) ((fun _ => saved) <$> markers w)
            (Some saved) (closed w)).

Definition close (w : window) : window :=
  mkWindow (savedFieldSelection w) (currentFieldSelection w) (model w)
           (exampleMarker w) (exampleMarker_fieldSelection w) (markers w)
           (MarkerFields w) true.

Definition okButtonClick (w : window) : option raised * window :=
  match applyButtonClick w with
  | (None, w) => (None, close w)
  | (Some e, w) => (Some e, w)
  end.

Definition cancelButtonClick (w : window) : option raised * window :=
  let w := set_current (savedFieldSelection w) w in
  match resetModel w with
  | (Some e, w) => (Some e, w)
  | (None, w) =>
      match updateMarker w with
      | (Some e, w) => (Some e, w)
      | (None, w) => (None, close w)
      end
  end.

Definition defaultButtonClick (w : window) : option raised * window :=
  let w := set_current default_field_names w in
  match resetModel w with
  | (Some e, w) => (Some e, w)
  | (None, w) => updateMarker w
  end.

(** [__init__]. [stored] is the value of the settings under
    ["MarkerFields"] ([Some []] stands for the empty string that the code
    reads as the empty list); without one the default field names are
    taken. The example marker is built for the frequency ["123456000"];
    [class_selection] is what its field selection reads before
    [updateMarker] binds one. *)
Definition open_window (stored : option (list string))
           (app_markers : list (list string)) (class_selection : list string)
  : option raised * window :=
  let saved := default default_field_names stored in
  let current := saved in
  let w := mkWindow saved current (build_model current)
                    (new_marker (parseFrequency "123456000"))
                    class_selection app_markers stored false in
  match updateMarker w with
  | (Some e, w) => (Some e, w)
  | (None, w) =>
      (None,
       mkWindow (savedFieldSelection w) (currentFieldSelection w) (model w)
                (exampleMarker w) (exampleMarker_fieldSelection w)
                ((fun _ => currentFieldSelection w) <$> markers w)
                (MarkerFields w) (closed w))
  end.

End Window.

(** The field names of the ticked rows. *)
Definition ticked (rows : list QStandardItem) : list string :=
  data <$> filter (fun row => checkState row = true) rows.

End Settings.

(** ** The bounds test in binary64

    [findLocation] above evaluates
    [self.frequency + lower_stepsize/2 < min_freq] and its mirror image
    exactly. Python computes the left-hand sides in binary64: the true
    division of two [int]s and the conversion of an [int] to [float] are
    correctly rounded and raise [OverflowError] beyond the float range,
    the sum of two floats is correctly rounded and may be infinite, and a
    float is compared with an [int] exactly. Every number involved is a
    whole number of halves, which is how the values are held here. *)

(** A binary64 value that is a whole number of halves, or an infinity. *)
Inductive binary64 : Type :=
| Finite (halves : Z)
| Infinity (negative : bool).

(** The binary64 value nearest to [halves / 2], ties to the even
    significand of 53 bits; an infinity from [2^1024 - 2^970] on. *)
Definition round53 (halves : Z) : binary64 :=
  let a := Z.abs halves in
  if a <? 2 ^ 53 then Finite halves else
  let d := Z.log2 a - 52 in
  let q := a / 2 ^ d in
  let r := a mod 2 ^ d in
  let tie := 2 ^ (d - 1) in
  let q := if r <? tie then q
           else if tie <? r then q + 1
           else if Z.even q then q else q + 1 in
  if q * 2 ^ d <? 2 ^ 1025
  then Finite (Z.sgn halves * (q * 2 ^ d))
  else Infinity (halves <? 0).

(** [float(z)] as the sum converts its [int] operand, and [z / 2]; [None]
    is [OverflowError]. *)
Definition float_of_int (z : Z) : option Z :=
  match round53 (2 * z) with
  | Finite halves => Some halves
  | Infinity _ => None
  end.

Definition int_div_2 (z : Z) : option Z :=
  match round53 z with
  | Finite halves => Some halves
  | Infinity _ => None
  end.

(** [x < z] and [x > z] for a float [x] and an [int] [z]. *)
Definition float_lt_int (x : binary64) (z : Z) : bool :=
  match x with
  | Finite halves => halves <? 2 * z
  | Infinity negative => negative
  end.

Definition float_gt_int (x : binary64) (z : Z) : bool :=
  match x with
  | Finite halves => 2 * z <? halves
  | Infinity negative => negb negative
  end.

(** The condition of [findLocation] for a target outside the data, as
    Python evaluates it, on the first two and the last two frequencies;
    [None] is [OverflowError]. The second comparison is evaluated only
    when the first is false. *)
Definition out_of_bounds_binary64 (f f0 f1 fp fl : Z) : option bool :=
  lower ← int_div_2 (f1 - f0);
  x ← float_of_int f;
  if float_lt_int (round53 (x + lower)) f0 then Some true else
  upper ← int_div_2 (fl - fp);
  x ← float_of_int f;
  Some (float_gt_int (round53 (x - upper)) fl).

(** The frequencies for which the exact bounds test of [findLocation] is
    the one Python computes: the target and all samples are below [2^51]
    in magnitude. *)
Definition exact_range (data : list Datapoint) (f : Z) : Prop :=
  Z.abs f < 2 ^ 51 /\ Forall (fun d => Z.abs (freq d) < 2 ^ 51) data.

(** The halves of a primitive float, for comparing [round53] with the
    floats of the machine. *)
Definition halves_of_float (x : float) : option Z :=
  match FloatOps.Prim2SF x with
  | SpecFloat.S754_zero _ => Some 0
  | SpecFloat.S754_finite s m e =>
      if 0 <=? e + 1
      then Some ((if s then -1 else 1) * (Z.pos m * 2 ^ (e + 1)))
      else if Z.pos m mod 2 ^ (- (e + 1)) =? 0
           then Some ((if s then -1 else 1) * (Z.pos m / 2 ^ (- (e + 1))))
           else None
  | _ => None
  end.

(** [float(z)] on the machine, for [0 <= z < 2^63]. *)
Definition machine_float (z : Z) : float :=
  PrimFloat.of_uint63 (Uint63.of_Z z).

(** * Properties *)

(** ** Indexing *)

Lemma getitem_lookup {A : Type} (l : list A) (i : Z) (x : A) :
  0 <= i -> l !! Z.to_nat i = Some x -> getitem l i = Ok x.
Proof.
  intros Hi Hx. unfold getitem.
  pose proof (lookup_lt_Some _ _ _ Hx) as Hlt.
  destruct (i <? 0) eqn:E; [lia |].
  replace ((0 <=? i) && (i <? Z.of_nat (length l))) with true
    by (symmetry; apply andb_true_iff; split; [apply Z.leb_le | apply Z.ltb_lt]; lia).
  now rewrite Hx.
Qed.

Lemma getitem_from_end {A : Type} (l : list A) (k : nat) (x : A) :
  (0 < k)%nat -> (k <= length l)%nat -> l !! (length l - k)%nat = Some x ->
  getitem l (- Z.of_nat k) = Ok x.
Proof.
  intros Hk Hle Hx. unfold getitem.
  destruct (- Z.of_nat k <? 0) eqn:E; [| lia].
  replace ((0 <=? - Z.of_nat k + Z.of_nat (length l))
           && (- Z.of_nat k + Z.of_nat (length l) <? Z.of_nat (length l)))
    with true
    by (symmetry; apply andb_true_iff; split; [apply Z.leb_le | apply Z.ltb_lt]; lia).
  replace (Z.to_nat (- Z.of_nat k + Z.of_nat (length l))) with (length l - k)%nat by lia.
  now rewrite Hx.
Qed.

Lemma getitem_out_of_range {A : Type} (l : list A) (i : Z) :
  Z.of_nat (length l) <= i -> getitem l i = Raise IndexError.
Proof.
  intros Hi. unfold getitem.
  destruct (i <? 0) eqn:E; [lia |].
  replace (i <? Z.of_nat (length l)) with false by (symmetry; apply Z.ltb_ge; lia).
  now rewrite andb_false_r.
Qed.

(** ** The scan loop *)

Lemma scan_Some (f : Z) (items : list Datapoint) :
  forall (i0 m i : Z) (item : Datapoint),
    scan f items i0 m = Some (i, item) ->
    exists k : nat,
      i = i0 + Z.of_nat k /\ items !! k = Some item /\
      nonincr f m (take k items) /\
      last_dist f m (take k items) < dist f item.
Proof.
  induction items as [| d rest IH]; intros i0 m i item Hs; simpl in Hs.
  - discriminate.
  - fold (dist f d) in Hs.
    destruct (Z.leb_spec (dist f d) m) as [Hle | Hgt].
    + apply IH in Hs as (k & -> & Hk & Hn & Hl).
      exists (S k). simpl. repeat split; trivial; lia.
    + injection Hs as <- <-. exists 0%nat. simpl. repeat split; trivial; lia.
Qed.

Lemma scan_None (f : Z) (items : list Datapoint) :
  forall i0 m : Z, scan f items i0 m = None -> nonincr f m items.
Proof.
  induction items as [| d rest IH]; intros i0 m Hs; simpl in *.
  - exact I.
  - fold (dist f d) in Hs.
    destruct (Z.leb_spec (dist f d) m) as [Hle | Hgt]; [| discriminate].
    split; [assumption | eapply IH; eassumption].
Qed.

Lemma nonincr_bound (f : Z) (l : list Datapoint) :
  forall (m : Z) (j : nat) (d : Datapoint),
    nonincr f m l -> l !! j = Some d -> dist f d <= m.
Proof.
  induction l as [| a l IH]; intros m j d Hn Hj; [discriminate |].
  destruct Hn as [Ha Hn]. destruct j as [| j]; simpl in Hj.
  - injection Hj as <-. assumption.
  - specialize (IH _ _ _ Hn Hj). lia.
Qed.

Lemma nonincr_mono (f : Z) (l : list Datapoint) :
  forall (m : Z) (j j' : nat) (d d' : Datapoint),
    nonincr f m l -> l !! j = Some d -> l !! j' = Some d' -> (j <= j')%nat ->
    dist f d' <= dist f d.
Proof.
  induction l as [| a l IH]; intros m j j' d d' Hn Hj Hj' Hle; [discriminate |].
  destruct Hn as [Ha Hn]. destruct j as [| j]; simpl in Hj.
  - injection Hj as <-. destruct j' as [| j']; simpl in Hj'.
    + injection Hj' as <-. lia.
    + eapply nonincr_bound; eassumption.
  - destruct j' as [| j']; [lia |]. simpl in Hj'.
    eapply (IH _ j j'); eauto with lia.
Qed.

Lemma last_dist_last (f : Z) (l : list Datapoint) :
  forall (m : Z) (d : Datapoint),
    l !! (length l - 1)%nat = Some d -> last_dist f m l = dist f d.
Proof.
  induction l as [| a l IH]; intros m d Hd; [discriminate |].
  destruct l as [| b l].
  - simpl in Hd. injection Hd as <-. reflexivity.
  - change (last_dist f (dist f a) (b :: l) = dist f d).
    apply IH. rewrite <- Hd.
    replace (length (a :: b :: l) - 1)%nat with (S (length (b :: l) - 1))
      by (simpl; lia).
    reflexivity.
Qed.

(** ** The paths through [findLocation] *)

Ltac run_method :=
  unfold mbind, M_bind, mret, M_ret, lift, get_frequency, get_location,
    set_location, set_nextFrequency, set_previousFrequency; simpl.

Lemma findLocation_zero (data : list Datapoint) (self : Marker) :
  frequency self = 0 -> findLocation data self = (Ok tt, unresolved self).
Proof.
  intros Hf. unfold findLocation. run_method.
  destruct (Z.eqb_spec (frequency self) 0) as [_ | E]; [reflexivity | contradiction].
Qed.

Lemma findLocation_empty (self : Marker) :
  findLocation [] self = (Ok tt, unresolved self).
Proof.
  unfold findLocation. run_method.
  destruct (frequency self =? 0); reflexivity.
Qed.

Lemma findLocation_single (d : Datapoint) (self : Marker) :
  frequency self <> 0 ->
  findLocation [d] self = (Raise IndexError, unresolved self).
Proof.
  intros Hf. unfold findLocation. run_method.
  destruct (Z.eqb_spec (frequency self) 0) as [E | _]; [contradiction |].
  reflexivity.
Qed.

Lemma findLocation_many (data : list Datapoint) (self : Marker)
      (d0 d1 dp dl : Datapoint) :
  frequency self <> 0 ->
  data !! 0%nat = Some d0 -> data !! 1%nat = Some d1 ->
  data !! (length data - 2)%nat = Some dp ->
  data !! (length data - 1)%nat = Some dl ->
  findLocation data self =
  if out_of_bounds (frequency self) (freq d0) (freq d1) (freq dp) (freq dl)
  then (Ok tt, unresolved self)
  else match scan (frequency self) data 0 (freq dl) with
       | Some (i, item) =>
           (Ok tt,
            resolved self (i - 1) (freq item)
                     (if 0 <=? i - 2
                      then from_option freq (-1) (data !! Z.to_nat (i - 2))
                      else -1))
       | None =>
           (Ok tt, resolved self (Z.of_nat (length data) - 1) (-1) (freq dp))
       end.
Proof.
  intros Hf H0 H1 Hp Hl.
  pose proof (lookup_lt_Some _ _ _ H1) as Hlen.
  assert (G0 : getitem data 0 = Ok d0) by (apply getitem_lookup; trivial; lia).
  assert (G1 : getitem data 1 = Ok d1) by (apply getitem_lookup; trivial; lia).
  assert (Gl : getitem data (-1) = Ok dl)
    by (apply (getitem_from_end data 1 dl); trivial; lia).
  assert (Gp : getitem data (-2) = Ok dp)
    by (apply (getitem_from_end data 2 dp); trivial; lia).
  unfold findLocation. run_method.
  destruct (Z.eqb_spec (frequency self) 0) as [E | _]; [contradiction |].
  destruct (Z.eqb_spec (Z.of_nat (length data)) 0) as [E | _]; [lia |].
  rewrite G0, G1, Gl, Gp.
  fold (out_of_bounds (frequency self) (freq d0) (freq d1) (freq dp) (freq dl)).
  destruct (out_of_bounds _ _ _ _ _); [reflexivity |].
  destruct (scan (frequency self) data 0 (freq dl)) as [[i item] |] eqn:Hs.
  - apply scan_Some in Hs as (k & -> & Hk & _ & _).
    pose proof (lookup_lt_Some _ _ _ Hk) as Hklt.
    replace (0 + Z.of_nat k <? Z.of_nat (length data)) with true
      by (symmetry; apply Z.ltb_lt; lia).
    simpl. destruct (Z.leb_spec 0 (0 + Z.of_nat k - 2)) as [Hge | Hlt].
    + destruct (lookup_lt_is_Some_2 data (Z.to_nat (0 + Z.of_nat k - 2)))
        as [d Hd]; [lia |].
      rewrite (getitem_lookup data _ d) by (trivial; lia).
      rewrite Hd. reflexivity.
    + reflexivity.
  - reflexivity.
Qed.

(** The comparisons over [Q], as comparisons of doubled integers. *)
Lemma Qlt_bool_half_l (a b c : Z) :
  Qlt_bool (inject_Z a + inject_Z b / 2) (inject_Z c) = (2 * a + b <? 2 * c).
Proof.
  unfold Qlt_bool, Qle_bool. simpl.
  rewrite Z.ltb_antisym. f_equal.
  apply eq_true_iff_eq. rewrite !Z.leb_le. lia.
Qed.

Lemma Qlt_bool_half_r (a b c : Z) :
  Qlt_bool (inject_Z c) (inject_Z a - inject_Z b / 2) = (2 * c <? 2 * a - b).
Proof.
  unfold Qlt_bool, Qle_bool. simpl.
  rewrite Z.ltb_antisym. f_equal.
  apply eq_true_iff_eq. rewrite !Z.leb_le. lia.
Qed.

Lemma Qle_half_l (a b c : Z) :
  (inject_Z a - inject_Z b / 2 <= inject_Z c)%Q <-> 2 * a - b <= 2 * c.
Proof. unfold Qle. simpl. lia. Qed.

Lemma Qle_half_r (a b c : Z) :
  (inject_Z c <= inject_Z a + inject_Z b / 2)%Q <-> 2 * c <= 2 * a + b.
Proof. unfold Qle. simpl. lia. Qed.

Lemma out_of_bounds_spec (f f0 f1 fp fl : Z) :
  out_of_bounds f f0 f1 fp fl = true <->
  2 * f + (f1 - f0) < 2 * f0 \/ 2 * fl < 2 * f - (fl - fp).
Proof.
  unfold out_of_bounds.
  rewrite Qlt_bool_half_l, Qlt_bool_half_r, orb_true_iff, !Z.ltb_lt.
  reflexivity.
Qed.

(** The four data points [findLocation] reads before the loop. *)
Lemma ends_of_data (data : list Datapoint) :
  (2 <= length data)%nat ->
  exists d0 d1 dp dl,
    data !! 0%nat = Some d0 /\ data !! 1%nat = Some d1 /\
    data !! (length data - 2)%nat = Some dp /\
    data !! (length data - 1)%nat = Some dl.
Proof.
  intros Hlen.
  destruct (lookup_lt_is_Some_2 data 0) as [d0 H0]; [lia |].
  destruct (lookup_lt_is_Some_2 data 1) as [d1 H1]; [lia |].
  destruct (lookup_lt_is_Some_2 data (length data - 2)) as [dp Hp]; [lia |].
  destruct (lookup_lt_is_Some_2 data (length data - 1)) as [dl Hl]; [lia |].
  eauto 10.
Qed.

Lemma lower_margin_step (data : list Datapoint) (d0 d1 : Datapoint) :
  data !! 0%nat = Some d0 -> data !! 1%nat = Some d1 ->
  lower_margin data = (inject_Z (freq d1 - freq d0) / 2)%Q.
Proof.
  destruct data as [| a [| b rest]]; simpl; try discriminate.
  intros [= <-] [= <-]. reflexivity.
Qed.

Lemma upper_margin_step (data : list Datapoint) (dp dl : Datapoint) :
  (2 <= length data)%nat ->
  data !! (length data - 2)%nat = Some dp ->
  data !! (length data - 1)%nat = Some dl ->
  upper_margin data = (inject_Z (freq dl - freq dp) / 2)%Q.
Proof.
  intros Hlen Hp Hl.
  assert (R0 : reverse data !! 0%nat = Some dl)
    by (rewrite reverse_lookup by lia; rewrite <- Hl; f_equal; lia).
  assert (R1 : reverse data !! 1%nat = Some dp)
    by (rewrite reverse_lookup by lia; rewrite <- Hp; f_equal; lia).
  unfold upper_margin.
  destruct (reverse data) as [| a [| b rest]]; simpl in *; try discriminate.
  injection R0 as <-. injection R1 as <-. reflexivity.
Qed.

(** Inside the tolerant range the bounds test of [findLocation] fails. *)
Lemma in_tolerant_range_bounds (data : list Datapoint) (f : Z)
      (d0 d1 dp dl : Datapoint) :
  (2 <= length data)%nat ->
  data !! 0%nat = Some d0 -> data !! 1%nat = Some d1 ->
  data !! (length data - 2)%nat = Some dp ->
  data !! (length data - 1)%nat = Some dl ->
  in_tolerant_range data f ->
  out_of_bounds f (freq d0) (freq d1) (freq dp) (freq dl) = false.
Proof.
  intros Hlen H0 H1 Hp Hl (a & b & Ha & Hb & Hlo & Hhi).
  rewrite head_lookup, H0 in Ha. injection Ha as <-.
  rewrite last_lookup in Hb.
  replace (pred (length data)) with (length data - 1)%nat in Hb by lia.
  rewrite Hl in Hb. injection Hb as <-.
  rewrite (lower_margin_step data d0 d1) in Hlo by assumption.
  rewrite (upper_margin_step data dp dl) in Hhi by assumption.
  apply Qle_half_l in Hlo. apply Qle_half_r in Hhi.
  apply not_true_is_false. rewrite out_of_bounds_spec. lia.
Qed.

(** ** Sorted data: the first rise of the distance is past the minimum *)

Lemma ascending_le (data : list Datapoint) (i j : nat) (di dj : Datapoint) :
  ascending data -> data !! i = Some di -> data !! j = Some dj ->
  (i <= j)%nat -> freq di <= freq dj.
Proof.
  intros Hasc Hi Hj Hle.
  destruct (decide (i = j)) as [-> | Hne].
  - rewrite Hi in Hj. injection Hj as <-. lia.
  - assert (freq di < freq dj) by (eapply Hasc; eauto; lia). lia.
Qed.

Lemma rise_is_past_target (data : list Datapoint) (f : Z) (k : nat)
      (a b : Datapoint) :
  ascending data ->
  data !! k = Some a -> data !! S k = Some b -> dist f a < dist f b ->
  forall (j : nat) (dj : Datapoint),
    data !! j = Some dj -> (S k <= j)%nat -> dist f b <= dist f dj.
Proof.
  intros Hasc Ha Hb Hrise j dj Hj Hle.
  assert (freq a < freq b) by (eapply Hasc; eauto).
  assert (freq b <= freq dj) by (eapply ascending_le; eauto).
  unfold dist in *. lia.
Qed.

(** ** Resolution to the nearest sample *)

(** C1 (amended). On a sweep of at least two samples, with the samples and
    the target below 2^51 in magnitude (where the float comparison of the
    bounds test is exact), for a target that is not 0, lies in the tolerant
    range and is no farther from the first sample than the initial bound
    [max_freq] of the running minimum, [findLocation] returns normally with
    [location] an index at which the distance to the target is least; among
    the indices at that least distance it is the last one. On the example
    data of the settings window with target 123456000 the location is 1. *)
Theorem findLocation_nearest_latest :
  (forall (data : list Datapoint) (self : Marker) (d0 dl : Datapoint),
      exact_range data (frequency self) ->
      (2 <= length data)%nat -> ascending data -> frequency self <> 0 ->
      in_tolerant_range data (frequency self) ->
      head data = Some d0 -> last data = Some dl ->
      dist (frequency self) d0 <= freq dl ->
      exists (idx : nat) (d : Datapoint) (next prev : Z),
        findLocation data self
        = (Ok tt, resolved self (Z.of_nat idx) next prev) /\
        data !! idx = Some d /\
        (forall (j : nat) (dj : Datapoint),
            data !! j = Some dj ->
            dist (frequency self) d <= dist (frequency self) dj) /\
        (forall (j : nat) (dj : Datapoint),
            data !! j = Some dj ->
            dist (frequency self) dj = dist (frequency self) d ->
            (j <= idx)%nat))
  /\ location (findLocation exampleData11 (new_marker 123456000)).2 = 1.
Proof.
  split; [| vm_compute; reflexivity].
  intros data self d0 dl _ Hlen Hasc Hf Hrange Hhead Hlast Hinit.
  destruct (ends_of_data data Hlen) as (e0 & d1 & dp & el & H0 & H1 & Hp & Hl).
  rewrite head_lookup, H0 in Hhead. injection Hhead as ->.
  rewrite last_lookup in Hlast.
  replace (pred (length data)) with (length data - 1)%nat in Hlast by lia.
  rewrite Hl in Hlast. injection Hlast as ->.
  rewrite (findLocation_many data self d0 d1 dp dl) by assumption.
  rewrite (in_tolerant_range_bounds data _ d0 d1 dp dl) by assumption.
  set (f := frequency self) in *.
  destruct (scan f data 0 (freq dl)) as [[i item] |] eqn:Hs.
  - apply scan_Some in Hs as (k & -> & Hk & Hn & Hrise).
    destruct k as [| k].
    { simpl in Hrise, Hk. rewrite H0 in Hk. injection Hk as <-. lia. }
    pose proof (lookup_lt_Some _ _ _ Hk) as Hklt.
    destruct (lookup_lt_is_Some_2 data k) as [d Hd]; [lia |].
    assert (Hlastd : last_dist f (freq dl) (take (S k) data) = dist f d).
    { apply last_dist_last. rewrite length_take, Nat.min_l by lia.
      rewrite lookup_take_lt by lia. rewrite <- Hd. f_equal. lia. }
    rewrite Hlastd in Hrise.
    assert (Hbefore : forall j dj, data !! j = Some dj -> (j <= k)%nat ->
                                   dist f d <= dist f dj).
    { intros j dj Hj Hle.
      apply (nonincr_mono f (take (S k) data) (freq dl) j k); trivial.
      - rewrite lookup_take_lt by lia. assumption.
      - rewrite lookup_take_lt by lia. assumption. }
    assert (Hafter : forall j dj, data !! j = Some dj -> (S k <= j)%nat ->
                                  dist f d < dist f dj).
    { intros j dj Hj Hle.
      pose proof (rise_is_past_target data f k d item Hasc Hd Hk Hrise j dj Hj Hle).
      lia. }
    exists k, d. eexists _, _. split; [| split; [exact Hd | split]].
    + replace (0 + Z.of_nat (S k) - 1) with (Z.of_nat k) by lia. reflexivity.
    + intros j dj Hj. destruct (le_lt_dec j k) as [Hle | Hgt].
      * eauto.
      * specialize (Hafter j dj Hj Hgt). lia.
    + intros j dj Hj Heq. destruct (le_lt_dec j k) as [Hle | Hgt]; [assumption |].
      specialize (Hafter j dj Hj Hgt). lia.
  - apply scan_None in Hs.
    exists (length data - 1)%nat, dl. eexists _, _.
    split; [| split; [exact Hl | split]].
    + replace (Z.of_nat (length data) - 1) with (Z.of_nat (length data - 1)) by lia.
      reflexivity.
    + intros j dj Hj. pose proof (lookup_lt_Some _ _ _ Hj).
      apply (nonincr_mono f data (freq dl) j (length data - 1)); trivial. lia.
    + intros j dj Hj _. pose proof (lookup_lt_Some _ _ _ Hj). lia.
Qed.

Ltac ascending_by_cases :=
  let i := fresh "i" in let j := fresh "j" in
  intros i j ? ? ? ? ?;
  repeat (destruct i as [| i]; try discriminate);
  repeat (destruct j as [| j]; try discriminate);
  simpl in *; simplify_eq; simpl; lia.

Ltac exact_range_by_computation :=
  split; [simpl; lia | repeat constructor; simpl; lia].

Ltac in_range_by_computation :=
  eexists _, _; split; [reflexivity |]; split; [reflexivity |];
  split; unfold Qle; simpl; lia.

(** The example data of the settings window with target 123456000 meets
    every hypothesis of the general statement. *)
Lemma findLocation_nearest_latest_example :
  exists (idx : nat) (d : Datapoint) (next prev : Z),
    findLocation exampleData11 (new_marker 123456000)
    = (Ok tt, resolved (new_marker 123456000) (Z.of_nat idx) next prev) /\
    exampleData11 !! idx = Some d /\
    (forall (j : nat) (dj : Datapoint),
        exampleData11 !! j = Some dj -> dist 123456000 d <= dist 123456000 dj) /\
    (forall (j : nat) (dj : Datapoint),
        exampleData11 !! j = Some dj ->
        dist 123456000 dj = dist 123456000 d -> (j <= idx)%nat).
Proof.
  apply (proj1 findLocation_nearest_latest exampleData11 (new_marker 123456000)
               (mkDatapoint 123000000 0.89 (-0.11))
               (mkDatapoint 124000000 0.91 (-0.95))).
  - exact_range_by_computation.
  - simpl. lia.
  - unfold exampleData11. ascending_by_cases.
  - simpl. lia.
  - unfold exampleData11. in_range_by_computation.
  - reflexivity.
  - reflexivity.
  - unfold dist. simpl. lia.
Defined.

(** C1 as stated fails: between two samples at equal distance the later
    one is taken. With samples at 100 and 200 and target 150 the location
    is 1, while index 0 is at the same distance 50. *)
Lemma findLocation_tie_not_earliest :
  ~ nearest_earliest [at_freq 100; at_freq 200] (new_marker 150).
Proof.
  intros Hclaim.
  destruct Hclaim as (idx & d & _ & Hloc & Hd & _ & Hearly).
  - discriminate.
  - ascending_by_cases.
  - in_range_by_computation.
  - change (1 = Z.of_nat idx) in Hloc.
    assert (idx = 1%nat) as -> by lia.
    simpl in Hd. injection Hd as <-.
    specialize (Hearly 0%nat (at_freq 100) eq_refl eq_refl). lia.
Qed.

(** The other ways out of [findLocation] that the hypotheses above
    exclude. A target of 0 is never resolved, also inside the tolerant
    range. *)
Example findLocation_target_zero :
  in_tolerant_range [at_freq 0; at_freq 100] 0 /\
  findLocation [at_freq 0; at_freq 100] (new_marker 0)
  = (Ok tt, unresolved (new_marker 0)).
Proof. split; [in_range_by_computation | reflexivity]. Qed.

(** The running minimum starts at [max_freq]: a first sample farther than
    that from the target ends the loop at position 0, with location [-1]
    and the first frequency as the next one. *)
Example findLocation_initial_bound :
  in_tolerant_range [at_freq 10; at_freq 1000] 1200 /\
  findLocation [at_freq 10; at_freq 1000] (new_marker 1200)
  = (Ok tt, resolved (new_marker 1200) (-1) 10 (-1)).
Proof. split; [in_range_by_computation | reflexivity]. Qed.

(** ** Degenerate data *)

(** C2: a single sample and a target that is not 0. The call raises
    [IndexError] on [data[1]]; the three attributes were reset before. *)
Theorem findLocation_single_sample_raises :
  findLocation [mkDatapoint 123000000 0.89 (-0.11)] (new_marker 123000000)
  = (Raise IndexError, unresolved (new_marker 123000000)).
Proof. apply findLocation_single. discriminate. Qed.

(** With no sample the call returns, whatever the target. *)
Lemma findLocation_no_sample_returns (self : Marker) :
  (findLocation [] self).1 = Ok tt.
Proof. now rewrite findLocation_empty. Qed.

(** ** Targets that are not resolved *)

(** On data other than a single sample: a target of 0, no data, or a target
    outside the tolerant range make the call return with location and both
    neighbour frequencies unset. *)
Lemma findLocation_unresolved (data : list Datapoint) (self : Marker) :
  length data <> 1%nat ->
  frequency self = 0 \/ data = [] \/
  (exists d0,
      head data = Some d0 /\
      (inject_Z (frequency self) + lower_margin data < inject_Z (freq d0))%Q) \/
  (exists dl,
      last data = Some dl /\
      (inject_Z (freq dl) < inject_Z (frequency self) - upper_margin data)%Q) ->
  findLocation data self = (Ok tt, unresolved self).
Proof.
  intros Hlen Hcases.
  destruct (decide (frequency self = 0)) as [Hz | Hnz];
    [now apply findLocation_zero |].
  destruct data as [| a data]; [apply findLocation_empty |].
  assert (Hlen2 : (2 <= length (a :: data))%nat)
    by (destruct data; simpl in *; [congruence | lia]).
  destruct (ends_of_data _ Hlen2) as (d0 & d1 & dp & dl & H0 & H1 & Hp & Hl).
  rewrite (findLocation_many _ self d0 d1 dp dl) by assumption.
  replace (out_of_bounds _ _ _ _ _) with true; [reflexivity |].
  symmetry. apply out_of_bounds_spec.
  destruct Hcases as [Hz | [He | [(e0 & Hh & Hlow) | (el & Hla & Hup)]]];
    [contradiction | discriminate | left | right].
  - rewrite head_lookup, H0 in Hh. injection Hh as <-.
    rewrite (lower_margin_step _ d0 d1) in Hlow by assumption.
    unfold Qlt in Hlow. simpl in Hlow. lia.
  - rewrite last_lookup in Hla.
    replace (pred (length (a :: data))) with (length (a :: data) - 1)%nat in Hla
      by lia.
    rewrite Hl in Hla. injection Hla as <-.
    rewrite (upper_margin_step _ dp dl) in Hup by assumption.
    unfold Qlt in Hup. simpl in Hup. lia.
Qed.

(** The target 200000000 on the example data: beyond
    [124000000 + upper_margin]. *)
Example findLocation_example_out_of_range :
  findLocation exampleData11 (new_marker 200000000)
  = (Ok tt, unresolved (new_marker 200000000)).
Proof. reflexivity. Qed.

(** C3: on a single sample both margins are 0, so the target 200000000 is
    above the tolerant range of the one sample at 123000000; the call
    raises [IndexError] instead of returning unresolved. *)
Theorem findLocation_single_sample_out_of_range_raises :
  (inject_Z 123000000
   < inject_Z 200000000
     - upper_margin [mkDatapoint 123000000 0.89 (-0.11)])%Q /\
  findLocation [mkDatapoint 123000000 0.89 (-0.11)] (new_marker 200000000)
  = (Raise IndexError, unresolved (new_marker 200000000)).
Proof.
  split; [reflexivity |]. apply findLocation_single. discriminate.
Qed.

(** ** The location is an index of the data *)

(** C4: after a call of [findLocation] on [data], also one that raised, the
    location is [-1] or an index of [data]. *)
Theorem findLocation_location_valid :
  forall (data : list Datapoint) (self : Marker),
    location (findLocation data self).2 = -1 \/
    0 <= location (findLocation data self).2 < Z.of_nat (length data).
Proof.
  intros data self.
  destruct (decide (frequency self = 0)) as [Hz | Hnz].
  { rewrite findLocation_zero by assumption. now left. }
  destruct data as [| a [| b rest]].
  - rewrite findLocation_empty. now left.
  - rewrite findLocation_single by assumption. now left.
  - assert (Hlen : (2 <= length (a :: b :: rest))%nat) by (simpl; lia).
    remember (a :: b :: rest) as data eqn:Edata. clear Edata.
    destruct (ends_of_data data Hlen) as (d0 & d1 & dp & dl & H0 & H1 & Hp & Hl).
    rewrite (findLocation_many data self d0 d1 dp dl) by assumption.
    destruct (out_of_bounds _ _ _ _ _); [now left |].
    destruct (scan (frequency self) data 0 (freq dl)) as [[i item] |] eqn:Hs.
    + apply scan_Some in Hs as (k & -> & Hk & _ & _).
      pose proof (lookup_lt_Some _ _ _ Hk). simpl. lia.
    + simpl. lia.
Qed.

(** ** The neighbour frequencies *)

Lemma nonincr_no_rise (f m : Z) (l : list Datapoint) (j : nat) :
  nonincr f m l -> ~ rises f l j.
Proof.
  intros Hn (a & b & Hpos & Ha & Hb & Hlt).
  pose proof (nonincr_mono f l m (j - 1) j a b Hn Ha Hb). lia.
Qed.

(** C5: after a call that returned with a location other than [-1], let
    [i] be the first position at which the distance rises ([i] is the
    length of the data when it rises nowhere). The location is [i - 1];
    [nextFrequency] is the frequency at the index after the location, and
    [-1] when the location is the last index; [previousFrequency] is the
    frequency at index [i - 2], and [-1] when [i - 2 < 0]. *)
Theorem findLocation_neighbours :
  forall (data : list Datapoint) (self self' : Marker),
    findLocation data self = (Ok tt, self') ->
    location self' <> -1 ->
    exists i : nat,
      first_rise (frequency self) data i /\
      location self' = Z.of_nat i - 1 /\
      (location self' = Z.of_nat (length data) - 1 ->
       nextFrequency (frequencyInput self') = -1) /\
      (forall d : Datapoint,
          data !! i = Some d -> nextFrequency (frequencyInput self') = freq d) /\
      ((i < 2)%nat -> previousFrequency (frequencyInput self') = -1) /\
      (forall d : Datapoint,
          (2 <= i)%nat -> data !! (i - 2)%nat = Some d ->
          previousFrequency (frequencyInput self') = freq d).
Proof.
  intros data self self' Hrun Hloc.
  destruct (decide (frequency self = 0)) as [Hz | Hnz].
  { rewrite findLocation_zero in Hrun by assumption.
    injection Hrun as <-. now elim Hloc. }
  destruct data as [| a [| b rest]].
  { rewrite findLocation_empty in Hrun. injection Hrun as <-. now elim Hloc. }
  { rewrite findLocation_single in Hrun by assumption. discriminate. }
  assert (Hlen : (2 <= length (a :: b :: rest))%nat) by (simpl; lia).
  remember (a :: b :: rest) as data eqn:Edata. clear Edata.
  destruct (ends_of_data data Hlen) as (d0 & d1 & dp & dl & H0 & H1 & Hp & Hl).
  rewrite (findLocation_many data self d0 d1 dp dl) in Hrun by assumption.
  destruct (out_of_bounds _ _ _ _ _).
  { injection Hrun as <-. now elim Hloc. }
  set (f := frequency self) in *.
  destruct (scan f data 0 (freq dl)) as [[i item] |] eqn:Hs.
  - apply scan_Some in Hs as (k & -> & Hk & Hn & Hrise).
    injection Hrun as <-. simpl in Hloc |- *.
    destruct k as [| k]; [lia |].
    pose proof (lookup_lt_Some _ _ _ Hk) as Hklt.
    destruct (lookup_lt_is_Some_2 data k) as [d Hd]; [lia |].
    assert (Hlastd : last_dist f (freq dl) (take (S k) data) = dist f d).
    { apply last_dist_last. rewrite length_take, Nat.min_l by lia.
      rewrite lookup_take_lt by lia. rewrite <- Hd. f_equal. lia. }
    rewrite Hlastd in Hrise.
    exists (S k). repeat split.
    + intros j Hj (x & y & Hpos & Hx & Hy & Hlt).
      apply (nonincr_no_rise f (freq dl) (take (S k) data) j Hn).
      exists x, y. rewrite !lookup_take_lt by lia. auto.
    + left. exists d, item. replace (S k - 1)%nat with k by lia. auto with lia.
    + lia.
    + intros e He. rewrite Hk in He. now injection He as <-.
    + intros Hlt. destruct (Z.leb_spec 0 (0 + Z.of_nat (S k) - 2)); [lia | reflexivity].
    + intros e Hge He.
      destruct (Z.leb_spec 0 (0 + Z.of_nat (S k) - 2)); [| lia].
      replace (Z.to_nat (0 + Z.of_nat (S k) - 2)) with (S k - 2)%nat by lia.
      rewrite He. reflexivity.
  - apply scan_None in Hs. injection Hrun as <-. simpl.
    exists (length data). repeat split.
    + intros j _. now apply (nonincr_no_rise f (freq dl)).
    + now right.
    + intros e He. apply lookup_lt_Some in He. lia.
    + intros Hlt. lia.
    + intros e _ He. rewrite Hp in He. now injection He as <-.
Qed.

(** ** The labels *)

(** One step of a method that writes labels; the dictionary is left as a
    term of [insert]s. *)
Ltac run_labels :=
  lazy beta iota zeta
       delta [mbind M_bind mret M_ret lift get_location
              get_returnloss_is_positive setText with_label negb
              frequency location frequencyInput returnloss_is_positive label].

Ltac label_lookup :=
  rewrite ?lookup_insert_ne by done;
  first [reflexivity | now rewrite lookup_insert_eq].

Section LabelProperties.
Context `{RFTools} `{Formatting}.

(** C10: with the location unset [updateLabels] returns at once: no
    attribute changes, and the data, which may even be empty, has no
    part in the outcome. *)
Theorem updateLabels_unresolved_noop :
  forall (s11data s21data : list Datapoint) (self : Marker),
    location self = -1 ->
    updateLabels s11data s21data self = (Ok tt, self).
Proof.
  intros s11data s21data [f loc input positive lbl] Hloc.
  simpl in Hloc. subst loc.
  unfold updateLabels. run_labels. reflexivity.
Qed.

(** A location at or past the end of the S11 data, left by a resolution on
    other data, makes the call raise before any label is written. *)
Lemma updateLabels_location_past_end :
  forall (s11data s21data : list Datapoint) (self : Marker),
    Z.of_nat (length s11data) <= location self ->
    updateLabels s11data s21data self = (Raise IndexError, self).
Proof.
  intros s11data s21data [f loc input positive lbl] Hloc.
  simpl in Hloc. unfold updateLabels. run_labels.
  destruct (Z.eqb_spec loc (-1)) as [E | _]; [lia |].
  rewrite getitem_out_of_range by assumption. reflexivity.
Qed.

(** C6: the marker is resolved on the S11 data and the S21 data has
    another length. The call returns; the three S21 labels are what they
    were, every S11 label holds the text computed from the data point at
    the location. *)
Theorem updateLabels_mismatched_lengths :
  forall (s11data s21data : list Datapoint) (self : Marker) (s11 : Datapoint),
    0 <= location self ->
    s11data !! Z.to_nat (location self) = Some s11 ->
    length s21data <> length s11data ->
    exists lbl : gmap string string,
      updateLabels s11data s21data self = (Ok tt, with_label self lbl) /\
      lbl !! "s21gain"%string = label self !! "s21gain"%string /\
      lbl !! "s21phase"%string = label self !! "s21phase"%string /\
      lbl !! "s21groupdelay"%string = label self !! "s21groupdelay"%string /\
      let imp := impedance s11 in
      let imp_p := serial_to_parallel imp in
      let cap_str :=
        format_capacitance (impedance_to_capacitance imp (freq s11)) in
      let ind_str :=
        format_inductance (impedance_to_inductance imp (freq s11)) in
      let cap_p_str :=
        format_capacitance (impedance_to_capacitance imp_p (freq s11)) in
      let ind_p_str :=
        format_inductance (impedance_to_inductance imp_p (freq s11)) in
      lbl !! "actualfreq"%string = Some (format_frequency (freq s11)) /\
      lbl !! "impedance"%string = Some (format_complex_imp imp) /\
      lbl !! "admittance"%string = Some (format_complex_imp imp_p) /\
      lbl !! "serr"%string = Some (format_resistance (real imp)) /\
      lbl !! "serlc"%string
      = Some (if (imag imp <? 0)%float then cap_str else ind_str) /\
      lbl !! "serl"%string = Some ind_str /\
      lbl !! "serc"%string = Some cap_str /\
      lbl !! "parr"%string = Some (format_resistance (real imp_p)) /\
      lbl !! "parlc"%string
      = Some (if (imag imp_p <? 0)%float then cap_p_str else ind_p_str) /\
      lbl !! "parl"%string = Some ind_p_str /\
      lbl !! "parc"%string = Some cap_p_str /\
      lbl !! "vswr"%string = Some (format_vswr (vswr s11)) /\
      lbl !! "returnloss"%string
      = Some (format_gain (gain s11) (Some (returnloss_is_positive self))) /\
      lbl !! "s11q"%string = Some (format_q_factor (qFactor s11)) /\
      lbl !! "s11phase"%string = Some (format_phase (phase s11)) /\
      lbl !! "s11groupdelay"%string
      = Some (format_group_delay (groupDelay s11data (location self))).
Proof.
  intros s11data s21data [f loc input positive lbl] s11 Hloc Hs11 Hlen.
  simpl in Hloc, Hs11. run_labels.
  eexists. split.
  - unfold updateLabels. run_labels.
    destruct (Z.eqb_spec loc (-1)) as [E | _]; [lia |].
    rewrite (getitem_lookup s11data _ s11) by assumption.
    destruct (Z.eqb_spec (Z.of_nat (length s21data)) (Z.of_nat (length s11data)))
      as [E | _]; [lia |].
    run_labels. reflexivity.
  - repeat split; label_lookup.
Qed.

(** C7: the marker is resolved and both data lists have one length. The
    S21 group delay shown is the text of [groupDelay] on the S21 data at
    the location, divided by 2; the S11 group delay shown is the text of
    the same [groupDelay] on the S11 data, undivided. *)
Theorem updateLabels_s21_group_delay_halved :
  forall (s11data s21data : list Datapoint) (self : Marker) (s11 : Datapoint),
    0 <= location self ->
    s11data !! Z.to_nat (location self) = Some s11 ->
    length s21data = length s11data ->
    exists lbl : gmap string string,
      updateLabels s11data s21data self = (Ok tt, with_label self lbl) /\
      lbl !! "s21groupdelay"%string
      = Some (format_group_delay
                (groupDelay s21data (location self) / 2)%float) /\
      lbl !! "s11groupdelay"%string
      = Some (format_group_delay (groupDelay s11data (location self))).
Proof.
  intros s11data s21data [f loc input positive lbl] s11 Hloc Hs11 Hlen.
  simpl in Hloc, Hs11. run_labels.
  pose proof (lookup_lt_Some _ _ _ Hs11) as Hlt.
  destruct (lookup_lt_is_Some_2 s21data (Z.to_nat loc))
    as [s21 Hs21]; [lia |].
  eexists. split.
  - unfold updateLabels. run_labels.
    destruct (Z.eqb_spec loc (-1)) as [E | _]; [lia |].
    rewrite (getitem_lookup s11data _ s11) by assumption.
    destruct (Z.eqb_spec (Z.of_nat (length s21data)) (Z.of_nat (length s11data)))
      as [_ | E]; [| lia].
    run_labels. rewrite (getitem_lookup s21data _ s21) by assumption.
    run_labels. reflexivity.
  - split; label_lookup.
Qed.

(** C8 (amended): [setFrequency] stores the parsed frequency and fires
    one notification. The notified marker has the new frequency and the
    location, neighbour frequencies and labels of before the call:
    nothing was resolved or computed. *)
Theorem setFrequency_notifies_without_resolving :
  forall (text : string) (self : Marker),
    exists n : Marker,
      setFrequency text self = (n, [n]) /\
      frequency n = parseFrequency text /\
      location n = location self /\
      frequencyInput n = frequencyInput self /\
      label n = label self.
Proof.
  intros text self. eexists. split; [reflexivity |]. repeat split.
Qed.

End LabelProperties.

(** The location is valid on the example data and the S21 data is one
    sample short. *)
Lemma updateLabels_mismatched_lengths_example :
  exists lbl : gmap string string,
    @updateLabels sample_RFTools sample_Formatting exampleData11
                  (take 2 exampleData21)
                  (resolved (new_marker 123456000) 1 124000000 123000000)
    = (Ok tt,
       with_label (resolved (new_marker 123456000) 1 124000000 123000000) lbl) /\
    lbl !! "s21gain"%string = Some ""%string /\
    lbl !! "vswr"%string = Some "vswr"%string.
Proof.
  destruct (@updateLabels_mismatched_lengths sample_RFTools sample_Formatting
              exampleData11 (take 2 exampleData21)
              (resolved (new_marker 123456000) 1 124000000 123000000)
              (mkDatapoint 123500000 0.9 (-0.1)))
    as (lbl & Hrun & Hgain & _ & _ & Hrest).
  - simpl. lia.
  - reflexivity.
  - simpl. lia.
  - exists lbl. split; [exact Hrun |]. split.
    + rewrite Hgain. reflexivity.
    + apply Hrest.
Defined.

Lemma updateLabels_s21_group_delay_halved_example :
  exists lbl : gmap string string,
    @updateLabels sample_RFTools sample_Formatting exampleData11 exampleData21
                  (resolved (new_marker 123456000) 1 124000000 123000000)
    = (Ok tt,
       with_label (resolved (new_marker 123456000) 1 124000000 123000000) lbl) /\
    lbl !! "s21groupdelay"%string
    = Some (@format_group_delay sample_Formatting (1 / 2)%float).
Proof.
  destruct (@updateLabels_s21_group_delay_halved sample_RFTools sample_Formatting
              exampleData11 exampleData21
              (resolved (new_marker 123456000) 1 124000000 123000000)
              (mkDatapoint 123500000 0.9 (-0.1)))
    as (lbl & Hrun & Hs21 & _).
  - simpl. lia.
  - reflexivity.
  - reflexivity.
  - exists lbl. split; [exact Hrun | exact Hs21].
Defined.

Lemma updateLabels_unresolved_noop_example :
  @updateLabels sample_RFTools sample_Formatting [] []
                (new_marker 200000000)
  = (Ok tt, new_marker 200000000).
Proof.
  apply (@updateLabels_unresolved_noop sample_RFTools sample_Formatting).
  reflexivity.
Defined.

Lemma findLocation_neighbours_example :
  exists i : nat,
    first_rise (frequency (new_marker 123456000)) exampleData11 i /\
    location (resolved (new_marker 123456000) 1 124000000 123000000)
    = Z.of_nat i - 1.
Proof.
  destruct (findLocation_neighbours exampleData11 (new_marker 123456000)
              (resolved (new_marker 123456000) 1 124000000 123000000))
    as (i & Hfirst & Hloc & _).
  - reflexivity.
  - discriminate.
  - exists i. split; assumption.
Defined.

(** C8 as stated fails. A marker resolved and labelled at 123456000 on the
    example data is given the frequency 200000000, outside the data: the
    notification carries location 1, where resolving gives [-1]. *)
Lemma setFrequency_notifies_stale :
  ~ @notified_up_to_date sample_RFTools sample_Formatting "200000000"
      (@refresh sample_RFTools sample_Formatting exampleData11 exampleData21
                (new_marker 123456000)).2
      exampleData11 exampleData21.
Proof.
  intros Hclaim.
  specialize (Hclaim _ (list_elem_of_here _ _)).
  apply (f_equal (fun p : result unit * Marker => location p.2)) in Hclaim.
  vm_compute in Hclaim. discriminate.
Qed.

(** ** The field selection *)

(** The default field names fill six rows on each side. *)
Example rows_default_field_names :
  FieldSelection.rows default_field_names
  = (["actualfreq"; "impedance"; "serl"; "serc"; "parr"; "parlc"],
     ["vswr"; "returnloss"; "s11q"; "s11phase"; "s21gain"; "s21phase"])%string.
Proof. vm_compute. reflexivity. Qed.

Section FieldSelectionProperties.
Import FieldSelection.

Lemma wf_class_body : wf class_body.
Proof.
  split; simpl.
  - set_solver.
  - intros a r Hr. rewrite lookup_empty in Hr. discriminate.
  - intros a r Hr. rewrite lookup_empty in Hr. discriminate.
  - intros a b r Hr. rewrite lookup_empty in Hr. discriminate.
Qed.

Lemma wf_buildForm (self : nat) (w : world) : wf w -> wf (buildForm self w).
Proof. intros [? ? ? ?]. split; simpl; assumption. Qed.

Lemma wf_init (self : nat) (w : world) : wf w -> wf (init self w).
Proof. apply wf_buildForm. Qed.

Lemma wf_mutate (r : nat) (f : list string -> list string) (w : world) :
  wf w -> wf (mutate r f w).
Proof.
  intros [Hc Hs Ho Ha]. split; simpl; try assumption.
  - rewrite dom_alter_L. assumption.
  - intros a r' Hr'. rewrite dom_alter_L. eauto.
Qed.

Lemma wf_setFieldSelection (self fields : nat) (w : world) :
  wf w -> wf (setFieldSelection self fields w).
Proof.
  intros [Hc Hs Ho Ha]. apply wf_buildForm.
  pose proof (is_fresh (dom (lists w))) as Hfresh.
  assert (Hold : forall a r, a <> self ->
                   <[self := fresh (dom (lists w))]> (self_fieldSelection w) !! a
                   = Some r ->
                   self_fieldSelection w !! a = Some r).
  { intros a r Hne Hr. now rewrite lookup_insert_ne in Hr by congruence. }
  assert (Hnew : forall r,
                   <[self := fresh (dom (lists w))]> (self_fieldSelection w) !! self
                   = Some r ->
                   r = fresh (dom (lists w))).
  { intros r Hr. rewrite lookup_insert_eq in Hr. congruence. }
  split; simpl.
  - rewrite dom_insert_L. set_solver.
  - intros a r Hr. rewrite dom_insert_L.
    destruct (decide (a = self)) as [-> | Hne].
    + apply Hnew in Hr as ->. set_solver.
    + apply Hold in Hr; [| assumption]. specialize (Hs _ _ Hr). set_solver.
  - intros a r Hr.
    destruct (decide (a = self)) as [-> | Hne].
    + apply Hnew in Hr as ->. intros E. rewrite E in Hfresh. contradiction.
    + apply Hold in Hr; [| assumption]. eauto.
  - intros a b r Hra Hrb.
    destruct (decide (a = self)) as [-> | Hna];
      destruct (decide (b = self)) as [-> | Hnb]; trivial.
    + apply Hnew in Hra as ->. apply Hold in Hrb; [| assumption].
      specialize (Hs _ _ Hrb). contradiction.
    + apply Hnew in Hrb as ->. apply Hold in Hra; [| assumption].
      specialize (Hs _ _ Hra). contradiction.
    + apply Hold in Hra; [| assumption]. apply Hold in Hrb; [| assumption].
      eauto.
Qed.

(** The object an attribute evaluates to is in the store. *)
Lemma fieldSelection_alive (a : nat) (w : world) :
  wf w -> fieldSelection a w ∈ dom (lists w).
Proof.
  intros [Hc Hs _ _]. unfold fieldSelection.
  destruct (self_fieldSelection w !! a) as [r |] eqn:E; simpl; eauto.
Qed.

Lemma lists_set (a fields : nat) (w : world) :
  lists (setFieldSelection a fields w)
  = <[fresh (dom (lists w)) := deref w fields]> (lists w).
Proof. reflexivity. Qed.

Lemma fieldSelection_set_self (a fields : nat) (w : world) :
  fieldSelection a (setFieldSelection a fields w) = fresh (dom (lists w)).
Proof.
  unfold fieldSelection, setFieldSelection, buildForm.
  cbn [self_fieldSelection Marker_fieldSelection].
  now rewrite lookup_insert_eq.
Qed.

Lemma fieldSelection_set_other (a b fields : nat) (w : world) :
  a <> b ->
  fieldSelection b (setFieldSelection a fields w) = fieldSelection b w.
Proof.
  intros Hab. unfold fieldSelection, setFieldSelection, buildForm.
  cbn [self_fieldSelection Marker_fieldSelection].
  now rewrite lookup_insert_ne.
Qed.

(** C9 (amended). Until [setFieldSelection] has bound it, the attribute
    of an instance is the list of the class, shared by all such
    instances. [setFieldSelection] on [a] binds a new list object, a
    copy of the list given: the selection of any other marker [b] is as
    before, later changes in place of the list given, or of any object
    that existed, do not reach the selection of [a], and two bound
    selections are different objects, so that a change of one in place
    leaves the other. *)
Theorem setFieldSelection_binds_own_copy :
  forall (w : world) (a b : nat) (fields : nat),
    wf w -> a <> b ->
    selection b (setFieldSelection a fields w) = selection b w /\
    selection a (setFieldSelection a fields w) = deref w fields /\
    (forall (r : nat) (f : list string -> list string),
        r ∈ dom (lists w) ->
        selection a (mutate r f (setFieldSelection a fields w))
        = deref w fields) /\
    (forall (ra rb : nat) (f : list string -> list string),
        self_fieldSelection w !! a = Some ra ->
        self_fieldSelection w !! b = Some rb ->
        ra <> rb /\ selection b (mutate ra f w) = selection b w) /\
    (self_fieldSelection w !! a = None ->
     self_fieldSelection w !! b = None ->
     fieldSelection a w = fieldSelection b w).
Proof.
  intros w a b fields Hwf Hab.
  pose proof (is_fresh (dom (lists w))) as Hfresh.
  pose proof (fieldSelection_alive b w Hwf) as Hb.
  assert (Hfresh_b : fresh (dom (lists w)) <> fieldSelection b w)
    by (intros E; rewrite E in Hfresh; contradiction).
  split; [| split; [| split; [| split]]].
  - unfold selection, deref.
    rewrite fieldSelection_set_other, lists_set by assumption.
    now rewrite lookup_insert_ne.
  - unfold selection, deref.
    rewrite fieldSelection_set_self, lists_set.
    now rewrite lookup_insert_eq.
  - intros r f Hr. unfold selection, deref at 1.
    change (fieldSelection a (mutate r f (setFieldSelection a fields w)))
      with (fieldSelection a (setFieldSelection a fields w)).
    rewrite fieldSelection_set_self.
    change (lists (mutate r f (setFieldSelection a fields w)))
      with (alter f r (lists (setFieldSelection a fields w))).
    rewrite lists_set, lookup_alter_ne, lookup_insert_eq; [reflexivity |].
    intros E. rewrite E in Hr. contradiction.
  - intros ra rb f Hra Hrb.
    assert (Hne : ra <> rb).
    { intros E. subst rb. destruct Hwf as [_ _ _ Hapart].
      apply Hab. eapply Hapart; eassumption. }
    split; [exact Hne |].
    unfold selection, deref.
    change (fieldSelection b (mutate ra f w)) with (fieldSelection b w).
    change (lists (mutate ra f w)) with (alter f ra (lists w)).
    unfold fieldSelection. rewrite Hrb. simpl.
    now rewrite lookup_alter_ne.
  - intros Ha Hb'. unfold fieldSelection. rewrite Ha, Hb'. reflexivity.
Qed.

End FieldSelectionProperties.

(** Two markers built one after the other; the first is then given a copy
    of the list object 0. *)
Lemma setFieldSelection_binds_own_copy_example :
  FieldSelection.selection 2
    (FieldSelection.setFieldSelection 1 0
       (FieldSelection.init 2 (FieldSelection.init 1 FieldSelection.class_body)))
  = FieldSelection.selection 2
      (FieldSelection.init 2 (FieldSelection.init 1 FieldSelection.class_body)).
Proof.
  apply (setFieldSelection_binds_own_copy
           (FieldSelection.init 2 (FieldSelection.init 1 FieldSelection.class_body))
           1%nat 2%nat 0%nat).
  - apply wf_init, wf_init, wf_class_body.
  - discriminate.
Defined.

(** C9 as stated fails: two markers just built read one and the same list
    object, the one of the class. *)
Lemma fieldSelection_shared_by_class :
  ~ FieldSelection.per_instance 1 2
      (FieldSelection.init 2 (FieldSelection.init 1 FieldSelection.class_body)).
Proof.
  intros (Hdistinct & _). apply Hdistinct. reflexivity.
Qed.

(** Appending to the selection read from the first of them shows in the
    second. *)
Example fieldSelection_append_shows_in_other :
  let w := FieldSelection.init 2 (FieldSelection.init 1 FieldSelection.class_body) in
  FieldSelection.selection 2 w = [] /\
  FieldSelection.selection 2
    (FieldSelection.mutate (FieldSelection.fieldSelection 1 w)
                           (fun l => l ++ ["vswr"%string]) w)
  = ["vswr"%string].
Proof. split; reflexivity. Qed.

(** * Further properties of the marker *)

(** ** The outcome of [findLocation] on any data *)

(** Every call on data other than a single sample returns, and the three
    attributes it leaves are of one of two kinds. *)
Lemma findLocation_outcome (data : list Datapoint) (self : Marker) :
  length data <> 1%nat ->
  exists loc next prev : Z,
    findLocation data self = (Ok tt, resolved self loc next prev) /\
    ((loc = -1 /\ prev = -1 /\ (next = -1 \/ next = freq_at data 0)) \/
     (0 <= loc < Z.of_nat (length data) /\
      next = freq_at data (loc + 1) /\ prev = freq_at data (loc - 1))).
Proof.
  intros Hlen.
  destruct (decide (frequency self = 0)) as [Hz | Hnz].
  { exists (-1), (-1), (-1). rewrite findLocation_zero by assumption.
    split; [reflexivity | left; auto]. }
  destruct data as [| a data].
  { exists (-1), (-1), (-1). rewrite findLocation_empty.
    split; [reflexivity | left; auto]. }
  assert (Hlen2 : (2 <= length (a :: data))%nat)
    by (destruct data; simpl in *; [congruence | lia]).
  remember (a :: data) as l eqn:El. clear El Hlen a data.
  destruct (ends_of_data l Hlen2) as (d0 & d1 & dp & dl & H0 & H1 & Hp & Hl).
  rewrite (findLocation_many l self d0 d1 dp dl) by assumption.
  destruct (out_of_bounds _ _ _ _ _).
  { exists (-1), (-1), (-1). split; [reflexivity | left; auto]. }
  destruct (scan (frequency self) l 0 (freq dl)) as [[i item] |] eqn:Hs.
  - apply scan_Some in Hs as (k & -> & Hk & _ & _).
    pose proof (lookup_lt_Some _ _ _ Hk) as Hklt.
    eexists _, _, _. split; [reflexivity |].
    destruct k as [| k].
    + left. repeat split. right. unfold freq_at.
      change (0 <=? 0) with true. change (Z.to_nat 0) with 0%nat.
      now rewrite Hk.
    + right. split; [lia |]. split.
      * unfold freq_at.
        destruct (Z.leb_spec 0 (0 + Z.of_nat (S k) - 1 + 1)); [| lia].
        replace (Z.to_nat (0 + Z.of_nat (S k) - 1 + 1)) with (S k) by lia.
        now rewrite Hk.
      * unfold freq_at.
        replace (0 + Z.of_nat (S k) - 1 - 1) with (0 + Z.of_nat (S k) - 2) by lia.
        reflexivity.
  - eexists _, _, _. split; [reflexivity |].
    right. split; [lia |]. split.
    + unfold freq_at.
      destruct (Z.leb_spec 0 (Z.of_nat (length l) - 1 + 1)); [| lia].
      rewrite lookup_ge_None_2 by lia. reflexivity.
    + unfold freq_at.
      destruct (Z.leb_spec 0 (Z.of_nat (length l) - 1 - 1)); [| lia].
      replace (Z.to_nat (Z.of_nat (length l) - 1 - 1)) with (length l - 2)%nat by lia.
      now rewrite Hp.
Qed.

(** The call starts by resetting the three attributes it writes, so what
    they held before has no part in the outcome. *)
Lemma findLocation_forgets (data : list Datapoint) (self : Marker)
      (loc next prev : Z) :
  findLocation data (resolved self loc next prev) = findLocation data self.
Proof. reflexivity. Qed.

(** Whether it returns or raises, the call leaves the attributes of
    [self] with at most the three of them changed. *)
Lemma findLocation_writes (data : list Datapoint) (self : Marker) :
  exists (r : result unit) (loc next prev : Z),
    findLocation data self = (r, resolved self loc next prev).
Proof.
  destruct (decide (length data = 1%nat)) as [H1 | H1].
  - destruct data as [| d [| ? ?]]; try discriminate.
    destruct (decide (frequency self = 0)) as [Hz | Hnz].
    + rewrite findLocation_zero by assumption. now eexists _, (-1), (-1), (-1).
    + rewrite findLocation_single by assumption. now eexists _, (-1), (-1), (-1).
  - destruct (findLocation_outcome data self H1) as (loc & next & prev & -> & _).
    eauto.
Qed.

(** X1. With the samples and the target below 2^51 in magnitude,
    [findLocation] raises exactly on a single sample with a target other
    than 0, and then it is [IndexError]; on all other such data and targets
    it returns. *)
Theorem findLocation_raises_iff_single_sample :
  forall (data : list Datapoint) (self : Marker),
    exact_range data (frequency self) ->
    (findLocation data self).1
    = if decide (length data = 1%nat /\ frequency self <> 0)
      then Raise IndexError else Ok tt.
Proof.
  intros data self _.
  destruct (decide (length data = 1%nat /\ frequency self <> 0)) as [[H1 Hf] | Hn].
  - destruct data as [| d [| ? ?]]; try discriminate.
    now rewrite findLocation_single.
  - destruct (decide (length data = 1%nat)) as [H1 | H1].
    + destruct (decide (frequency self = 0)) as [Hz | Hnz]; [| tauto].
      now rewrite findLocation_zero.
    + destruct (findLocation_outcome data self H1) as (? & ? & ? & -> & _).
      reflexivity.
Qed.

Lemma findLocation_raises_iff_single_sample_example :
  (findLocation exampleData11 (new_marker 200000000)).1
  = if decide (length exampleData11 = 1%nat
               /\ frequency (new_marker 200000000) <> 0)
    then Raise IndexError else Ok tt.
Proof.
  apply (findLocation_raises_iff_single_sample exampleData11
           (new_marker 200000000)).
  exact_range_by_computation.
Defined.

(** X2. A call changes nothing but the location and the two neighbour
    frequencies, and a second call on the same data changes nothing at
    all: the outcome is a function of the data and the target alone. *)
Theorem findLocation_idempotent :
  forall (data : list Datapoint) (self : Marker),
    frequency (findLocation data self).2 = frequency self /\
    returnloss_is_positive (findLocation data self).2
    = returnloss_is_positive self /\
    label (findLocation data self).2 = label self /\
    findLocation data (findLocation data self).2 = findLocation data self.
Proof.
  intros data self.
  destruct (findLocation_writes data self) as (r & loc & next & prev & E).
  rewrite E. simpl. repeat split.
  rewrite findLocation_forgets. exact E.
Qed.

(** ** The neighbours are the adjacent samples *)

(** X3. After a call that returned with a location other than [-1],
    [nextFrequency] is the frequency of the sample right after the
    location and [previousFrequency] that of the sample right before it;
    each is [-1] where the data has no such sample. *)
Theorem findLocation_neighbours_adjacent :
  forall (data : list Datapoint) (self self' : Marker),
    findLocation data self = (Ok tt, self') ->
    0 <= location self' ->
    nextFrequency (frequencyInput self') = freq_at data (location self' + 1) /\
    previousFrequency (frequencyInput self')
    = freq_at data (location self' - 1).
Proof.
  intros data self self' Hrun Hloc.
  destruct (decide (length data = 1%nat)) as [H1 | H1].
  - destruct data as [| d [| ? ?]]; try discriminate.
    destruct (decide (frequency self = 0)) as [Hz | Hnz].
    + rewrite findLocation_zero in Hrun by assumption.
      injection Hrun as <-. simpl in Hloc. lia.
    + rewrite findLocation_single in Hrun by assumption. discriminate.
  - destruct (findLocation_outcome data self H1)
      as (loc & next & prev & E & [(-> & _) | (_ & -> & ->)]);
      rewrite E in Hrun; injection Hrun as <-; simpl in *; [lia | auto].
Qed.

Lemma findLocation_neighbours_adjacent_example :
  nextFrequency
    (frequencyInput (resolved (new_marker 123456000) 1 124000000 123000000))
  = freq_at exampleData11 2 /\
  previousFrequency
    (frequencyInput (resolved (new_marker 123456000) 1 124000000 123000000))
  = freq_at exampleData11 0.
Proof.
  apply (findLocation_neighbours_adjacent exampleData11 (new_marker 123456000)
           (resolved (new_marker 123456000) 1 124000000 123000000)).
  - reflexivity.
  - simpl. lia.
Defined.

(** ** Targets on a sample and at the edges *)

Lemma scan_of_nonincr (f : Z) (items : list Datapoint) :
  forall i0 m : Z, nonincr f m items -> scan f items i0 m = None.
Proof.
  induction items as [| d rest IH]; intros i0 m Hn; simpl in *; [reflexivity |].
  destruct Hn as [Hd Hn]. fold (dist f d).
  destruct (Z.leb_spec (dist f d) m); [now apply IH | lia].
Qed.

Lemma ascending_tail (a : Datapoint) (l : list Datapoint) :
  ascending (a :: l) -> ascending l.
Proof.
  intros Hasc i j di dj Hi Hj Hlt.
  apply (Hasc (S i) (S j) di dj); simpl; trivial. lia.
Qed.

(** Below the target the distances fall along ascending data. *)
Lemma nonincr_below_target (f : Z) (l : list Datapoint) :
  forall m : Z,
    ascending l ->
    (forall (j : nat) (d : Datapoint), l !! j = Some d -> freq d <= f) ->
    (forall d : Datapoint, l !! 0%nat = Some d -> dist f d <= m) ->
    nonincr f m l.
Proof.
  induction l as [| a l IH]; intros m Hasc Hle Hm; simpl; [exact I |].
  split; [now apply Hm |].
  apply IH.
  - eapply ascending_tail; eassumption.
  - intros j d Hd. apply (Hle (S j) d Hd).
  - intros d Hd.
    assert (freq a < freq d) by (apply (Hasc 0%nat 1%nat a d); trivial; lia).
    pose proof (Hle 1%nat d Hd). unfold dist. lia.
Qed.

(** X4. A target that is the frequency of a sample resolves to that sample:
    on ascending data of at least two samples whose first frequency is not
    negative, with all frequencies below 2^51, and for a target other than
    0. *)
Theorem findLocation_exact_hit :
  forall (data : list Datapoint) (self : Marker) (k : nat) (d d0 : Datapoint),
    exact_range data (frequency self) ->
    (2 <= length data)%nat -> ascending data ->
    data !! 0%nat = Some d0 -> 0 <= freq d0 ->
    data !! k = Some d -> freq d = frequency self -> frequency self <> 0 ->
    exists next prev : Z,
      findLocation data self = (Ok tt, resolved self (Z.of_nat k) next prev).
Proof.
  intros data self k d d0 _ Hlen Hasc H0 Hpos Hk Hhit Hf.
  destruct (ends_of_data data Hlen) as (e0 & d1 & dp & dl & H0' & H1 & Hp & Hl).
  rewrite H0 in H0'. injection H0' as <-.
  pose proof (lookup_lt_Some _ _ _ Hk) as Hklt.
  set (f := frequency self) in *.
  assert (Hd0 : freq d0 <= f)
    by (rewrite <- Hhit; eapply ascending_le; eauto; lia).
  assert (Hdl : f <= freq dl)
    by (rewrite <- Hhit; eapply ascending_le; eauto; lia).
  assert (H01 : freq d0 < freq d1) by (eapply Hasc; eauto).
  assert (Hpl : freq dp < freq dl) by (eapply Hasc; eauto; lia).
  assert (Hdk : dist f d = 0) by (unfold dist; lia).
  rewrite (findLocation_many data self d0 d1 dp dl) by assumption.
  fold f.
  replace (out_of_bounds f (freq d0) (freq d1) (freq dp) (freq dl)) with false
    by (symmetry; apply not_true_is_false; rewrite out_of_bounds_spec; lia).
  assert (Hnext : forall (j : nat) (dj : Datapoint) (m : Z) (n : nat),
             nonincr f m (take n data) -> (k < j < n)%nat ->
             data !! j = Some dj -> False).
  { intros j dj m n Hn Hj Hdj.
    assert (freq d < freq dj) by (eapply Hasc; eauto; lia).
    pose proof (lookup_lt_Some _ _ _ Hdj) as Hjlt.
    assert (dist f dj <= dist f d).
    { apply (nonincr_mono f (take n data) m k j); trivial; try lia;
        rewrite lookup_take_lt by lia; assumption. }
    unfold dist in *. lia. }
  destruct (scan f data 0 (freq dl)) as [[i item] |] eqn:Hs.
  - apply scan_Some in Hs as (n & -> & Hn & Hnon & Hrise).
    pose proof (lookup_lt_Some _ _ _ Hn) as Hnlt.
    destruct n as [| n].
    { simpl in Hrise. rewrite H0 in Hn. injection Hn as <-.
      unfold dist in Hrise. lia. }
    destruct (lookup_lt_is_Some_2 data n) as [dn Hdn]; [lia |].
    assert (Hlastd : last_dist f (freq dl) (take (S n) data) = dist f dn).
    { apply last_dist_last. rewrite length_take, Nat.min_l by lia.
      rewrite lookup_take_lt by lia. rewrite <- Hdn. f_equal. lia. }
    rewrite Hlastd in Hrise.
    assert (n = k) as ->.
    { destruct (lt_eq_lt_dec n k) as [[Hlt | Heq] | Hgt]; [| assumption |].
      - exfalso.
        assert (freq dn < freq item) by (eapply Hasc; eauto).
        assert (freq item <= freq d) by (eapply ascending_le; eauto; lia).
        unfold dist in *. lia.
      - exfalso.
        destruct (lookup_lt_is_Some_2 data (S k)) as [dk1 Hdk1]; [lia |].
        apply (Hnext (S k) dk1 (freq dl) (S n) Hnon); [lia | assumption]. }
    eexists _, _.
    replace (0 + Z.of_nat (S k) - 1) with (Z.of_nat k) by lia. reflexivity.
  - apply scan_None in Hs.
    assert (k = length data - 1)%nat as ->.
    { destruct (decide (k = length data - 1)%nat) as [E | Hne]; [assumption |].
      exfalso.
      destruct (lookup_lt_is_Some_2 data (S k)) as [dk1 Hdk1]; [lia |].
      apply (Hnext (S k) dk1 (freq dl) (length data));
        [now rewrite firstn_all | lia | assumption]. }
    eexists _, _.
    replace (Z.of_nat (length data) - 1) with (Z.of_nat (length data - 1)) by lia.
    reflexivity.
Qed.

Lemma findLocation_exact_hit_example :
  exists next prev : Z,
    findLocation exampleData11 (new_marker 123500000)
    = (Ok tt, resolved (new_marker 123500000) (Z.of_nat 1) next prev).
Proof.
  apply (findLocation_exact_hit exampleData11 (new_marker 123500000) 1%nat
           (mkDatapoint 123500000 0.9 (-0.1))
           (mkDatapoint 123000000 0.89 (-0.11))).
  - exact_range_by_computation.
  - simpl. lia.
  - unfold exampleData11. ascending_by_cases.
  - reflexivity.
  - simpl. lia.
  - reflexivity.
  - reflexivity.
  - simpl. lia.
Defined.

(** X5. With the samples and the target below 2^51 in magnitude, a target
    at or below the first sample, inside the lower margin and no farther
    from the first sample than [max_freq], resolves to index 0: there is no
    previous frequency, the next one is that of the second sample. *)
Theorem findLocation_below_first :
  forall (data : list Datapoint) (self : Marker) (d0 d1 dl : Datapoint),
    exact_range data (frequency self) ->
    ascending data ->
    data !! 0%nat = Some d0 -> data !! 1%nat = Some d1 ->
    last data = Some dl ->
    frequency self <> 0 -> frequency self <= freq d0 ->
    in_tolerant_range data (frequency self) ->
    freq d0 - frequency self <= freq dl ->
    findLocation data self = (Ok tt, resolved self 0 (freq d1) (-1)).
Proof.
  intros data self d0 d1 dl _ Hasc H0 H1 Hlast Hf Hbelow Hrange Hinit.
  pose proof (lookup_lt_Some _ _ _ H1) as Hlen.
  destruct (ends_of_data data Hlen) as (e0 & e1 & dp & el & H0' & H1' & Hp & Hl).
  rewrite H0 in H0'. injection H0' as <-.
  rewrite H1 in H1'. injection H1' as <-.
  rewrite last_lookup in Hlast.
  replace (pred (length data)) with (length data - 1)%nat in Hlast by lia.
  rewrite Hl in Hlast. injection Hlast as <-.
  rewrite (findLocation_many data self d0 d1 dp el) by assumption.
  rewrite (in_tolerant_range_bounds data _ d0 d1 dp el) by assumption.
  assert (H01 : freq d0 < freq d1) by (eapply Hasc; eauto).
  destruct data as [| a [| b rest]]; try discriminate.
  simpl in H0, H1. injection H0 as ->. injection H1 as ->.
  simpl scan.
  destruct (Z.leb_spec (Z.abs (freq d0 - frequency self)) (freq el)); [| lia].
  destruct (Z.leb_spec (Z.abs (freq d1 - frequency self))
                       (Z.abs (freq d0 - frequency self))); [lia |].
  reflexivity.
Qed.

Lemma findLocation_below_first_example :
  findLocation exampleData11 (new_marker 122900000)
  = (Ok tt, resolved (new_marker 122900000) 0 123500000 (-1)).
Proof.
  apply (findLocation_below_first exampleData11 (new_marker 122900000)
           (mkDatapoint 123000000 0.89 (-0.11))
           (mkDatapoint 123500000 0.9 (-0.1))
           (mkDatapoint 124000000 0.91 (-0.95))).
  - exact_range_by_computation.
  - unfold exampleData11. ascending_by_cases.
  - reflexivity.
  - reflexivity.
  - reflexivity.
  - simpl. lia.
  - simpl. lia.
  - unfold exampleData11. in_range_by_computation.
  - simpl. lia.
Defined.

(** X6. With the samples and the target below 2^51 in magnitude, a target
    at or above the last sample, inside the upper margin and no farther
    from the first sample than [max_freq], resolves to the last index:
    there is no next frequency, the previous one is that of the sample
    before the last. *)
Theorem findLocation_above_last :
  forall (data : list Datapoint) (self : Marker) (d0 dp dl : Datapoint),
    exact_range data (frequency self) ->
    (2 <= length data)%nat -> ascending data ->
    data !! 0%nat = Some d0 ->
    data !! (length data - 2)%nat = Some dp ->
    data !! (length data - 1)%nat = Some dl ->
    frequency self <> 0 -> freq dl <= frequency self ->
    in_tolerant_range data (frequency self) ->
    frequency self - freq d0 <= freq dl ->
    findLocation data self
    = (Ok tt, resolved self (Z.of_nat (length data) - 1) (-1) (freq dp)).
Proof.
  intros data self d0 dp dl _ Hlen Hasc H0 Hp Hl Hf Habove Hrange Hinit.
  destruct (ends_of_data data Hlen) as (e0 & d1 & ep & el & H0' & H1 & Hp' & Hl').
  rewrite H0 in H0'. injection H0' as <-.
  rewrite Hp in Hp'. injection Hp' as <-.
  rewrite Hl in Hl'. injection Hl' as <-.
  rewrite (findLocation_many data self d0 d1 dp dl) by assumption.
  rewrite (in_tolerant_range_bounds data _ d0 d1 dp dl) by assumption.
  rewrite scan_of_nonincr; [reflexivity |].
  apply nonincr_below_target; trivial.
  - intros j d Hd. pose proof (lookup_lt_Some _ _ _ Hd).
    assert (freq d <= freq dl) by (eapply ascending_le; eauto; lia). lia.
  - intros d Hd. rewrite H0 in Hd. injection Hd as <-.
    assert (freq d0 <= freq dl) by (eapply ascending_le; eauto; lia).
    unfold dist. lia.
Qed.

Lemma findLocation_above_last_example :
  findLocation exampleData11 (new_marker 124200000)
  = (Ok tt, resolved (new_marker 124200000) (Z.of_nat 3 - 1) (-1) 123500000).
Proof.
  apply (findLocation_above_last exampleData11 (new_marker 124200000)
           (mkDatapoint 123000000 0.89 (-0.11))
           (mkDatapoint 123500000 0.9 (-0.1))
           (mkDatapoint 124000000 0.91 (-0.95))).
  - exact_range_by_computation.
  - simpl. lia.
  - unfold exampleData11. ascending_by_cases.
  - reflexivity.
  - reflexivity.
  - reflexivity.
  - simpl. lia.
  - simpl. lia.
  - unfold exampleData11. in_range_by_computation.
  - simpl. lia.
Defined.

(** ** Which labels the methods write *)

Lemma LABELS_fieldnames :
  fieldname <$> LABELS
  = [ "actualfreq"; "impedance"; "admittance"; "serr"; "serlc"; "serl"; "serc";
      "parr"; "parlc"; "parl"; "parc"; "vswr"; "returnloss"; "s11q"; "s11phase";
      "s11groupdelay"; "s21gain"; "s21phase"; "s21groupdelay" ]%string.
Proof. reflexivity. Qed.

(** A key that is, or is not, one of the listed field names. *)
Ltac each_fieldname Hk :=
  rewrite LABELS_fieldnames in Hk;
  repeat (apply elem_of_cons in Hk as [-> | Hk]);
  [.. | now apply elem_of_nil in Hk].

Ltac no_fieldname Hk :=
  rewrite LABELS_fieldnames in Hk;
  repeat (let H := fresh "Hne" in apply not_elem_of_cons in Hk as [H Hk]).

Ltac label_other := rewrite ?lookup_insert_ne by congruence; reflexivity.

(** Indexing depends on the length of the list alone. *)
Lemma getitem_in_range {A : Type} (l : list A) (i : Z) :
  - Z.of_nat (length l) <= i < Z.of_nat (length l) ->
  exists x : A, getitem l i = Ok x.
Proof.
  intros Hi. unfold getitem.
  destruct (i <? 0) eqn:E.
  - apply Z.ltb_lt in E.
    replace ((0 <=? i + Z.of_nat (length l))
             && (i + Z.of_nat (length l) <? Z.of_nat (length l))) with true
      by (symmetry; apply andb_true_iff; split;
          [apply Z.leb_le | apply Z.ltb_lt]; lia).
    destruct (lookup_lt_is_Some_2 l (Z.to_nat (i + Z.of_nat (length l))))
      as [x Hx]; [lia |].
    rewrite Hx. eauto.
  - apply Z.ltb_ge in E.
    replace ((0 <=? i) && (i <? Z.of_nat (length l))) with true
      by (symmetry; apply andb_true_iff; split;
          [apply Z.leb_le | apply Z.ltb_lt]; lia).
    destruct (lookup_lt_is_Some_2 l (Z.to_nat i)) as [x Hx]; [lia |].
    rewrite Hx. eauto.
Qed.

Lemma getitem_outside {A : Type} (l : list A) (i : Z) :
  ~ (- Z.of_nat (length l) <= i < Z.of_nat (length l)) ->
  getitem l i = Raise IndexError.
Proof.
  intros Hi.
  destruct (Z.ltb_spec i 0) as [E | E]; [| apply getitem_out_of_range; lia].
  unfold getitem.
  replace (i <? 0) with true by (symmetry; apply Z.ltb_lt; lia).
  replace (0 <=? i + Z.of_nat (length l)) with false
    by (symmetry; apply Z.leb_gt; lia).
  reflexivity.
Qed.

(** [resetLabels], label by label. *)
Lemma resetLabels_labels (self : Marker) :
  exists lbl : gmap string string,
    resetLabels self = (Ok tt, with_label self lbl) /\
    (forall k : string, k ∈ fieldname <$> LABELS -> lbl !! k = Some ""%string) /\
    (forall k : string, k ∉ fieldname <$> LABELS -> lbl !! k = label self !! k).
Proof.
  destruct self as [f loc input positive lbl0].
  eexists. split; [unfold resetLabels; run_labels; reflexivity |].
  run_labels. split; intros k Hk.
  - each_fieldname Hk; label_lookup.
  - no_fieldname Hk. label_other.
Qed.

Section WrittenLabels.
Context `{RFTools} `{Formatting}.

(** [updateLabels] on a location inside the S11 data, label by label: keys
    that are no field names are left alone; with S21 data of the same
    length the text of every field name is new, the same whatever the
    labels [lbl0] held before. *)
Lemma updateLabels_labels (s11data s21data : list Datapoint) (self : Marker) :
  location self <> -1 ->
  - Z.of_nat (length s11data) <= location self < Z.of_nat (length s11data) ->
  exists lbl : gmap string string,
    updateLabels s11data s21data self = (Ok tt, with_label self lbl) /\
    (forall k : string, k ∉ fieldname <$> LABELS -> lbl !! k = label self !! k) /\
    (length s21data <> length s11data ->
     forall k : string,
       k ∈ ["s21gain"; "s21phase"; "s21groupdelay"]%string ->
       lbl !! k = label self !! k) /\
    (length s21data = length s11data ->
     forall lbl0 : gmap string string,
     exists lbl' : gmap string string,
       updateLabels s11data s21data (with_label self lbl0)
       = (Ok tt, with_label self lbl') /\
       forall k : string, k ∈ fieldname <$> LABELS -> lbl' !! k = lbl !! k).
Proof.
  destruct self as [f loc input positive lbl0].
  cbn [location label]. intros Hloc Hrange.
  destruct (getitem_in_range s11data loc Hrange) as [s11 Hs11].
  unfold updateLabels. run_labels.
  destruct (Z.eqb_spec loc (-1)) as [E | _]; [contradiction |].
  rewrite Hs11. run_labels.
  destruct (Z.eqb_spec (Z.of_nat (length s21data)) (Z.of_nat (length s11data)))
    as [Heq | Hne].
  - destruct (getitem_in_range s21data loc) as [s21 Hs21]; [lia |].
    rewrite Hs21. run_labels.
    eexists. split; [reflexivity |]. split; [| split].
    + intros k Hk. no_fieldname Hk. label_other.
    + intros Hlen. lia.
    + intros _ lbl1. eexists. split; [reflexivity |].
      intros k Hk.
      each_fieldname Hk;
        (etrans; [rewrite ?lookup_insert_ne by done; apply lookup_insert_eq |];
         symmetry; label_lookup).
  - run_labels.
    eexists. split; [reflexivity |]. split; [| split].
    + intros k Hk. no_fieldname Hk. label_other.
    + intros _ k Hk.
      repeat (apply elem_of_cons in Hk as [-> | Hk]);
        [.. | now apply elem_of_nil in Hk]; label_lookup.
    + intros Hlen. lia.
Qed.

End WrittenLabels.

Section LabelExtras.
Context `{RFTools} `{Formatting}.

(** With the location unset nothing is read or written. *)
Lemma updateLabels_unset (s11data s21data : list Datapoint) (self : Marker) :
  location self = -1 -> updateLabels s11data s21data self = (Ok tt, self).
Proof.
  destruct self as [f loc input positive lbl]. cbn [location]. intros ->.
  unfold updateLabels. run_labels. reflexivity.
Qed.

(** With the location outside the S11 data the call raises at once. *)
Lemma updateLabels_outside (s11data s21data : list Datapoint) (self : Marker) :
  location self <> -1 ->
  ~ (- Z.of_nat (length s11data) <= location self < Z.of_nat (length s11data)) ->
  updateLabels s11data s21data self = (Raise IndexError, self).
Proof.
  destruct self as [f loc input positive lbl]. cbn [location]. intros Hloc Hout.
  unfold updateLabels. run_labels.
  destruct (Z.eqb_spec loc (-1)) as [E | _]; [contradiction |].
  rewrite getitem_outside by assumption. reflexivity.
Qed.

(** X7. [resetLabels] returns and empties the label of every field of
    [LABELS], none forgotten; labels under other keys and the other
    attributes are as before. *)
Theorem resetLabels_clears_every_field :
  forall self : Marker,
    (resetLabels self).1 = Ok tt /\
    (resetLabels self).2 = with_label self (label (resetLabels self).2) /\
    (forall l : Field,
        l ∈ LABELS ->
        label (resetLabels self).2 !! fieldname l = Some ""%string) /\
    (forall k : string,
        k ∉ fieldname <$> LABELS ->
        label (resetLabels self).2 !! k = label self !! k).
Proof.
  intros self.
  destruct (resetLabels_labels self) as (lbl & E & Hin & Hout).
  rewrite E. cbn [fst snd].
  assert (El : label (with_label self lbl) = lbl) by reflexivity.
  rewrite El.
  split; [reflexivity |]. split; [reflexivity |]. split.
  - intros l Hl. apply Hin. now apply list_elem_of_fmap_2.
  - exact Hout.
Qed.

(** X8. On a resolved marker and S21 data as long as the S11 data,
    [updateLabels] writes the label of every field of [LABELS]: the texts
    after the call are the same whatever the labels held before it. *)
Theorem updateLabels_overwrites_every_field :
  forall (s11data s21data : list Datapoint) (self : Marker)
         (lbl0 : gmap string string) (k : string),
    location self <> -1 ->
    - Z.of_nat (length s11data) <= location self < Z.of_nat (length s11data) ->
    length s21data = length s11data ->
    k ∈ fieldname <$> LABELS ->
    label (updateLabels s11data s21data (with_label self lbl0)).2 !! k
    = label (updateLabels s11data s21data self).2 !! k.
Proof.
  intros s11data s21data self lbl0 k Hloc Hrange Hlen Hk.
  destruct (updateLabels_labels s11data s21data self Hloc Hrange)
    as (lbl & -> & _ & _ & Hnew).
  destruct (Hnew Hlen lbl0) as (lbl' & -> & Hsame).
  destruct self. apply Hsame, Hk.
Qed.

(** X9. [updateLabels] writes labels only: frequency, location, neighbour
    frequencies and the sign convention are as before, and so is every
    label whose key is no field name of [LABELS]. *)
Theorem updateLabels_writes_labels_only :
  forall (s11data s21data : list Datapoint) (self : Marker),
    (updateLabels s11data s21data self).2
    = with_label self (label (updateLabels s11data s21data self).2) /\
    (forall k : string,
        k ∉ fieldname <$> LABELS ->
        label (updateLabels s11data s21data self).2 !! k = label self !! k).
Proof.
  intros s11data s21data self.
  destruct (decide (location self = -1)) as [Hu | Hloc].
  { rewrite updateLabels_unset by assumption. split; [now destruct self | auto]. }
  destruct (decide (- Z.of_nat (length s11data) <= location self
                    < Z.of_nat (length s11data))) as [Hrange | Hout].
  - destruct (updateLabels_labels s11data s21data self Hloc Hrange)
      as (lbl & -> & Hkeep & _).
    split; [now destruct self | exact Hkeep].
  - rewrite updateLabels_outside by assumption. split; [now destruct self | auto].
Qed.

(** X10. [updateLabels] raises exactly when the location is neither [-1]
    nor a Python index of the S11 data ([-len .. len-1]); the S21 data is
    never the cause. When it raises no label has been written. *)
Theorem updateLabels_raises_iff_outside :
  forall (s11data s21data : list Datapoint) (self : Marker),
    (updateLabels s11data s21data self).1
    = (if decide (location self = -1 \/
                  - Z.of_nat (length s11data) <= location self
                  < Z.of_nat (length s11data))
       then Ok tt else Raise IndexError) /\
    ((updateLabels s11data s21data self).1 = Ok tt \/
     (updateLabels s11data s21data self).2 = self).
Proof.
  intros s11data s21data self.
  destruct (decide (location self = -1)) as [Hu | Hloc].
  { rewrite updateLabels_unset by assumption.
    destruct (decide _) as [_ | Hn]; [auto | tauto]. }
  destruct (decide (- Z.of_nat (length s11data) <= location self
                    < Z.of_nat (length s11data))) as [Hrange | Hout].
  - destruct (updateLabels_labels s11data s21data self Hloc Hrange)
      as (lbl & -> & _).
    destruct (decide _) as [_ | Hn]; [auto | tauto].
  - rewrite updateLabels_outside by assumption.
    destruct (decide _) as [[? | ?] | _]; [contradiction.. | auto].
Qed.

End LabelExtras.

Lemma updateLabels_overwrites_every_field_example :
  label (@updateLabels sample_RFTools sample_Formatting exampleData11
           exampleData21
           (with_label (resolved (new_marker 123456000) 1 124000000 123000000)
                       ∅)).2 !! "vswr"%string
  = label (@updateLabels sample_RFTools sample_Formatting exampleData11
             exampleData21
             (resolved (new_marker 123456000) 1 124000000 123000000)).2
    !! "vswr"%string.
Proof.
  apply (@updateLabels_overwrites_every_field sample_RFTools sample_Formatting
           exampleData11 exampleData21
           (resolved (new_marker 123456000) 1 124000000 123000000) ∅).
  - discriminate.
  - change (- 3 <= 1 < 3). lia.
  - reflexivity.
  - rewrite LABELS_fieldnames. repeat constructor.
Defined.

(** ** Resolving, clearing and labelling in a row *)

Section RefreshProperties.
Context `{RFTools} `{Formatting}.

Lemma refresh_unfold (data11 data21 : list Datapoint) (self : Marker) :
  refresh data11 data21 self
  = match findLocation data11 self with
    | (Ok _, s1) =>
        match resetLabels s1 with
        | (Ok _, s2) => updateLabels data11 data21 s2
        | (Raise e, s2) => (Raise e, s2)
        end
    | (Raise e, s1) => (Raise e, s1)
    end.
Proof. reflexivity. Qed.

(** On data other than a single sample the three steps come down to
    [updateLabels] on a marker with a location that is [-1] or an index of
    the data, and with the labels of all fields emptied. *)
Lemma refresh_steps (data11 data21 : list Datapoint) (self : Marker) :
  length data11 <> 1%nat ->
  exists (loc next prev : Z) (lbl : gmap string string),
    refresh data11 data21 self
    = updateLabels data11 data21 (with_label (resolved self loc next prev) lbl) /\
    findLocation data11 self = (Ok tt, resolved self loc next prev) /\
    (loc = -1 \/ 0 <= loc < Z.of_nat (length data11)) /\
    (forall k : string, k ∈ fieldname <$> LABELS -> lbl !! k = Some ""%string) /\
    (forall k : string, k ∉ fieldname <$> LABELS -> lbl !! k = label self !! k).
Proof.
  intros Hlen.
  destruct (findLocation_outcome data11 self Hlen)
    as (loc & next & prev & E & Hcases).
  destruct (resetLabels_labels (resolved self loc next prev))
    as (lbl & Er & Hin & Hout).
  exists loc, next, prev, lbl.
  rewrite refresh_unfold, E, Er.
  split; [reflexivity |]. split; [reflexivity |]. split; [| auto].
  destruct Hcases as [(-> & _) | (Hloc & _)]; auto.
Qed.

(** X11. Resolving a marker and then labelling it from the same data never
    raises in the labelling: with the S11 samples and the target below 2^51
    in magnitude, [findLocation], [resetLabels], [updateLabels] in a row
    raise exactly where [findLocation] does, on a single sample with a
    target other than 0. *)
Theorem refresh_raises_iff_single_sample :
  forall (data11 data21 : list Datapoint) (self : Marker),
    exact_range data11 (frequency self) ->
    (refresh data11 data21 self).1
    = if decide (length data11 = 1%nat /\ frequency self <> 0)
      then Raise IndexError else Ok tt.
Proof.
  intros data11 data21 self _.
  destruct (decide (length data11 = 1%nat)) as [H1 | H1].
  - destruct data11 as [| d [| ? ?]]; try discriminate.
    destruct (decide (frequency self = 0)) as [Hz | Hnz].
    + rewrite refresh_unfold, findLocation_zero by assumption.
      destruct (resetLabels_labels (unresolved self)) as (lbl & -> & _).
      rewrite updateLabels_unset by reflexivity.
      destruct (decide _) as [[_ ?] | _]; [contradiction | reflexivity].
    + rewrite refresh_unfold, findLocation_single by assumption.
      destruct (decide _) as [_ | Hn]; [reflexivity | tauto].
  - destruct (refresh_steps data11 data21 self H1)
      as (loc & next & prev & lbl & -> & _ & Hloc & _).
    destruct (decide _) as [[? _] | _]; [contradiction |].
    destruct Hloc as [-> | Hloc].
    + now rewrite updateLabels_unset.
    + destruct (updateLabels_labels data11 data21
                  (with_label (resolved self loc next prev) lbl))
        as (lbl' & -> & _); [simpl; lia | simpl; lia | reflexivity].
Qed.

(** X12. When the three steps return with the marker unresolved, the label
    of every field of [LABELS] is empty: nothing of an earlier resolution
    stays on display. *)
Theorem refresh_unresolved_clears :
  forall (data11 data21 : list Datapoint) (self : Marker) (l : Field),
    (refresh data11 data21 self).1 = Ok tt ->
    location (refresh data11 data21 self).2 = -1 ->
    l ∈ LABELS ->
    label (refresh data11 data21 self).2 !! fieldname l = Some ""%string.
Proof.
  intros data11 data21 self l Hok Hloc Hl.
  assert (Hk : fieldname l ∈ fieldname <$> LABELS) by now apply list_elem_of_fmap_2.
  destruct (decide (length data11 = 1%nat)) as [H1 | H1].
  - destruct data11 as [| d [| ? ?]]; try discriminate.
    destruct (decide (frequency self = 0)) as [Hz | Hnz].
    + rewrite refresh_unfold, findLocation_zero by assumption.
      destruct (resetLabels_labels (unresolved self)) as (lbl & -> & Hin & _).
      rewrite updateLabels_unset by reflexivity. now apply Hin.
    + rewrite refresh_unfold, findLocation_single in Hok by assumption.
      discriminate.
  - destruct (refresh_steps data11 data21 self H1)
      as (loc & next & prev & lbl & E & _ & Hcases & Hin & _).
    rewrite E in Hloc |- *.
    destruct Hcases as [-> | Hrange].
    + rewrite updateLabels_unset by reflexivity. now apply Hin.
    + exfalso.
      destruct (updateLabels_labels data11 data21
                  (with_label (resolved self loc next prev) lbl))
        as (lbl' & E' & _); [simpl; lia | simpl; lia |].
      rewrite E' in Hloc. simpl in Hloc. lia.
Qed.

(** X13. With the S11 samples and the target below 2^51 in magnitude and
    S21 data of another length than the S11 data, the three steps leave the
    three S21 labels empty, whatever they showed before and whether or not
    the marker is resolved. *)
Theorem refresh_mismatched_clears_s21 :
  forall (data11 data21 : list Datapoint) (self : Marker) (k : string),
    exact_range data11 (frequency self) ->
    length data11 <> 1%nat ->
    length data21 <> length data11 ->
    k ∈ ["s21gain"; "s21phase"; "s21groupdelay"]%string ->
    label (refresh data11 data21 self).2 !! k = Some ""%string.
Proof.
  intros data11 data21 self k _ H1 Hlen Hk.
  assert (Hk' : k ∈ fieldname <$> LABELS).
  { rewrite LABELS_fieldnames.
    repeat (apply elem_of_cons in Hk as [-> | Hk]);
      [.. | now apply elem_of_nil in Hk]; repeat constructor. }
  destruct (refresh_steps data11 data21 self H1)
    as (loc & next & prev & lbl & -> & _ & Hcases & Hin & _).
  destruct Hcases as [-> | Hrange].
  - rewrite updateLabels_unset by reflexivity. now apply Hin.
  - destruct (updateLabels_labels data11 data21
                (with_label (resolved self loc next prev) lbl))
      as (lbl' & -> & _ & Hs21 & _); [simpl; lia | simpl; lia |].
    cbn [snd]. change (lbl' !! k = Some ""%string).
    rewrite (Hs21 Hlen k Hk). now apply Hin.
Qed.

End RefreshProperties.

Lemma refresh_unresolved_clears_example :
  label (@refresh sample_RFTools sample_Formatting exampleData11 exampleData21
           (resolved (new_marker 200000000) 1 124000000 123000000)).2
  !! fieldname (mkField "vswr" "VSWR" "VSWR" true)
  = Some ""%string.
Proof.
  apply (@refresh_unresolved_clears sample_RFTools sample_Formatting).
  - vm_compute. reflexivity.
  - vm_compute. reflexivity.
  - unfold LABELS. repeat constructor.
Defined.

Lemma refresh_mismatched_clears_s21_example :
  label (@refresh sample_RFTools sample_Formatting exampleData11
           (take 2 exampleData21)
           (with_label (new_marker 123456000)
                       {[ "s21gain"%string := "stale"%string ]})).2
  !! "s21gain"%string
  = Some ""%string.
Proof.
  apply (@refresh_mismatched_clears_s21 sample_RFTools sample_Formatting).
  - exact_range_by_computation.
  - discriminate.
  - discriminate.
  - repeat constructor.
Defined.

Lemma refresh_raises_iff_single_sample_example :
  (@refresh sample_RFTools sample_Formatting exampleData11 exampleData21
     (new_marker 123456000)).1
  = if decide (length exampleData11 = 1%nat
               /\ frequency (new_marker 123456000) <> 0)
    then Raise IndexError else Ok tt.
Proof.
  apply (@refresh_raises_iff_single_sample sample_RFTools sample_Formatting
           exampleData11 exampleData21 (new_marker 123456000)).
  exact_range_by_computation.
Defined.

(** ** The settings window *)

Section SettingsProperties.
Import Settings.
Context `{RFTools} `{Formatting}.

(** On data other than a single sample the three steps return. *)
Lemma refresh_returns (data11 data21 : list Datapoint) (self : Marker) :
  length data11 <> 1%nat -> (refresh data11 data21 self).1 = Ok tt.
Proof.
  intros H1.
  destruct (refresh_steps data11 data21 self H1)
    as (loc & next & prev & lbl & -> & _ & Hloc & _).
  destruct Hloc as [-> | Hloc].
  - now rewrite updateLabels_unset.
  - destruct (updateLabels_labels data11 data21
                (with_label (resolved self loc next prev) lbl))
      as (lbl' & -> & _); [simpl; lia | simpl; lia | reflexivity].
Qed.

(** [updateMarker] returns; it gives the example marker the current
    selection and touches neither the selections nor the rows. *)
Lemma updateMarker_returns (w : window) :
  exists marker : Marker,
    updateMarker w
    = (None,
       mkWindow (savedFieldSelection w) (currentFieldSelection w) (model w)
                marker (currentFieldSelection w) (markers w) (MarkerFields w)
                (closed w)).
Proof.
  unfold updateMarker.
  pose proof (refresh_returns exampleData11 exampleData21 (exampleMarker w))
    as Hret.
  destruct (refresh exampleData11 exampleData21 (exampleMarker w)) as [r marker].
  simpl in Hret. rewrite Hret by discriminate. eauto.
Qed.

Lemma ticked_app (l1 l2 : list QStandardItem) :
  ticked (l1 ++ l2) = ticked l1 ++ ticked l2.
Proof. unfold ticked. now rewrite filter_app, fmap_app. Qed.

Lemma ticked_cons (row : QStandardItem) (rows : list QStandardItem) :
  ticked (row :: rows)
  = (if checkState row then [data row] else []) ++ ticked rows.
Proof.
  unfold ticked. rewrite filter_cons.
  destruct (checkState row); destruct (decide _);
    first [reflexivity | congruence].
Qed.

Lemma checked_data_ticked (rows : list QStandardItem) :
  forall acc : list string, checked_data rows acc = acc ++ ticked rows.
Proof.
  induction rows as [| row rows IH]; intros acc.
  - simpl. now rewrite app_nil_r.
  - cbn [checked_data]. rewrite IH, ticked_cons.
    destruct (checkState row); [now rewrite <- app_assoc | reflexivity].
Qed.

Lemma remove_first_Permutation (x : string) (l : list string) :
  x ∈ l -> l ≡ₚ x :: remove_first x l.
Proof.
  induction l as [| y l IH]; intros Hx; [now apply elem_of_nil in Hx |].
  simpl. case_bool_decide as E.
  - now subst.
  - apply elem_of_cons in Hx as [-> | Hx]; [contradiction |].
    rewrite (IH Hx) at 1. apply Permutation_swap.
Qed.

(** The ticked names before and after the box of row [i] changes. *)
Lemma ticked_insert (rows : list QStandardItem) (i : nat) (row : QStandardItem) :
  rows !! i = Some row ->
  ticked rows
  = ticked (take i rows) ++ (if checkState row then [data row] else [])
    ++ ticked (drop (S i) rows) /\
  ticked (<[i := mkItem (text row) (data row) (negb (checkState row))]> rows)
  = ticked (take i rows) ++ (if checkState row then [] else [data row])
    ++ ticked (drop (S i) rows).
Proof.
  intros Hrow. pose proof (lookup_lt_Some _ _ _ Hrow) as Hlt.
  split.
  - rewrite <- (take_drop_middle rows i row Hrow) at 1.
    rewrite ticked_app, ticked_cons. reflexivity.
  - rewrite insert_take_drop by assumption.
    rewrite ticked_app, ticked_cons. cbn [checkState data].
    now destruct (checkState row).
Qed.

(** X14. Ticking or unticking a box keeps the current selection and the
    ticked boxes in step: if the rows have different field names and the
    current selection lists the ticked names, each once and in any order,
    then this holds again after the change, the call returns, and the
    example marker has been given the new selection. *)
Theorem itemChanged_keeps_selection_ticked :
  forall (i : nat) (row : QStandardItem) (w : window),
    model w !! i = Some row ->
    NoDup (data <$> model w) ->
    currentFieldSelection w ≡ₚ ticked (model w) ->
    (itemChanged i w).1 = None /\
    NoDup (data <$> model (itemChanged i w).2) /\
    currentFieldSelection (itemChanged i w).2
    ≡ₚ ticked (model (itemChanged i w).2) /\
    exampleMarker_fieldSelection (itemChanged i w).2
    = currentFieldSelection (itemChanged i w).2.
Proof.
  intros i row w Hrow Hnodup Hinv.
  destruct (ticked_insert (model w) i row Hrow) as [Hbefore Hafter].
  set (row' := mkItem (text row) (data row) (negb (checkState row))) in *.
  assert (Hdata : data <$> <[i := row']> (model w) = data <$> model w).
  { rewrite list_fmap_insert. apply list_insert_id.
    rewrite list_lookup_fmap, Hrow. reflexivity. }
  unfold itemChanged. rewrite Hrow. fold row'.
  unfold updateField.
  cbn [checkState data row' set_model currentFieldSelection model].
  destruct (checkState row) eqn:Hstate; cbn [negb].
  - (* the box was ticked and no longer is *)
    assert (Hin : data row ∈ currentFieldSelection w).
    { rewrite Hinv, Hbefore. set_solver. }
    rewrite bool_decide_eq_true_2 by assumption.
    match goal with |- context [updateMarker ?w1] =>
      destruct (updateMarker_returns w1) as (marker & ->) end.
    cbn [fst snd set_current set_model model currentFieldSelection
         exampleMarker_fieldSelection savedFieldSelection].
    repeat split; [now rewrite Hdata |].
    rewrite Hafter. apply (Permutation_cons_inv (a := data row)).
    rewrite <- remove_first_Permutation by assumption.
    rewrite Hinv, Hbefore. simpl. now rewrite Permutation_middle.
  - (* the box was not ticked and now is *)
    assert (Hnotin : data row ∉ currentFieldSelection w).
    { rewrite Hinv. unfold ticked. intros Hin.
      apply list_elem_of_fmap in Hin as (other & Hd & Hother).
      apply list_elem_of_filter in Hother as [Hticked Hother].
      apply list_elem_of_lookup in Hother as [j Hj].
      assert (i = j) as <-.
      { apply (NoDup_lookup (data <$> model w) i j (data row)); trivial.
        - now rewrite list_lookup_fmap, Hrow.
        - rewrite list_lookup_fmap, Hj. simpl. now f_equal. }
      rewrite Hrow in Hj. injection Hj as <-. congruence. }
    rewrite bool_decide_eq_false_2 by assumption.
    match goal with |- context [updateMarker ?w1] =>
      destruct (updateMarker_returns w1) as (marker & ->) end.
    cbn [fst snd set_current set_model model currentFieldSelection
         exampleMarker_fieldSelection savedFieldSelection].
    repeat split; [now rewrite Hdata |].
    now rewrite checked_data_ticked.
Qed.

(** X15. [resetModel] raises [ValueError] on the first field of [LABELS]:
    a [Field] has four components and the loop unpacks three. So the
    buttons Cancel and Defaults always raise, after they replaced the
    current selection and emptied the rows; the example marker is not
    updated and Cancel does not close the window. *)
Theorem cancel_and_defaults_raise :
  forall w : window,
    cancelButtonClick w
    = (Some ValueError, set_model [] (set_current (savedFieldSelection w) w)) /\
    defaultButtonClick w
    = (Some ValueError, set_model [] (set_current default_field_names w)).
Proof. intros w. split; reflexivity. Qed.

(** X16. Opening the window on a selection (the stored one, or the
    default field names when none is stored) that names fields of [LABELS],
    each once, returns with the current selection and the ticked boxes in
    step and the rows of different field names; every marker of the
    application has been given that selection. *)
Theorem open_window_selection_ticked :
  forall (stored : option (list string)) (app_markers : list (list string))
         (class_selection : list string),
    NoDup (default default_field_names stored) ->
    (forall x : string,
        x ∈ default default_field_names stored -> x ∈ fieldname <$> LABELS) ->
    (open_window stored app_markers class_selection).1 = None /\
    NoDup (data <$> model (open_window stored app_markers class_selection).2) /\
    currentFieldSelection (open_window stored app_markers class_selection).2
    ≡ₚ ticked (model (open_window stored app_markers class_selection).2) /\
    markers (open_window stored app_markers class_selection).2
    = (fun _ => default default_field_names stored) <$> app_markers.
Proof.
  intros stored app_markers class_selection Hnodup Hknown.
  unfold open_window.
  set (saved := default default_field_names stored) in *.
  match goal with |- context [updateMarker ?w1] =>
    destruct (updateMarker_returns w1) as (marker & ->) end.
  cbn [fst snd model currentFieldSelection markers savedFieldSelection
       exampleMarker exampleMarker_fieldSelection MarkerFields closed].
  assert (Hdata : data <$> build_model saved = fieldname <$> LABELS).
  { unfold build_model. rewrite <- list_fmap_compose. reflexivity. }
  assert (Hnames : NoDup (fieldname <$> LABELS)).
  { rewrite LABELS_fieldnames. apply (bool_decide_unpack _). vm_compute. exact I. }
  repeat split; [now rewrite Hdata |].
  apply NoDup_Permutation; trivial.
  - unfold ticked. apply NoDup_fmap_2_strong.
    + intros r1 r2 Hr1 Hr2 Hd.
      apply list_elem_of_filter in Hr1 as [_ Hr1].
      apply list_elem_of_filter in Hr2 as [_ Hr2].
      apply list_elem_of_lookup in Hr1 as [j1 Hj1].
      apply list_elem_of_lookup in Hr2 as [j2 Hj2].
      assert (j1 = j2) as <-.
      { apply (NoDup_lookup (data <$> build_model saved) j1 j2 (data r1)).
        - now rewrite Hdata.
        - now rewrite list_lookup_fmap, Hj1.
        - rewrite list_lookup_fmap, Hj2. simpl. now f_equal. }
      congruence.
    + apply NoDup_filter. apply (NoDup_fmap_1 data). now rewrite Hdata.
  - intros x. unfold ticked, build_model. split.
    + intros Hx. apply list_elem_of_fmap.
      specialize (Hknown x Hx).
      apply list_elem_of_fmap in Hknown as (l & -> & Hl).
      eexists. split; [| apply list_elem_of_filter; split;
                          [| apply list_elem_of_fmap_2; exact Hl]].
      * reflexivity.
      * simpl. now apply bool_decide_eq_true_2.
    + intros Hx.
      apply list_elem_of_fmap in Hx as (r & -> & Hr).
      apply list_elem_of_filter in Hr as [Hticked Hr].
      apply list_elem_of_fmap in Hr as (l & -> & _).
      simpl in *. now apply bool_decide_eq_true_1 in Hticked.
Qed.

(** X21. Apply hands the current selection to the saved selection, the
    stored settings and every marker of the application; ticking or
    unticking a box afterwards changes none of the three: it shows in the
    example marker only, until the next Apply. *)
Theorem itemChanged_after_apply_is_preview :
  forall (i : nat) (w : window),
    (applyButtonClick w).1 = None /\
    savedFieldSelection (itemChanged i (applyButtonClick w).2).2
    = currentFieldSelection w /\
    MarkerFields (itemChanged i (applyButtonClick w).2).2
    = Some (currentFieldSelection w) /\
    markers (itemChanged i (applyButtonClick w).2).2
    = (fun _ => currentFieldSelection w) <$> markers w /\
    closed (itemChanged i (applyButtonClick w).2).2 = closed w.
Proof.
  intros i w. split; [reflexivity |].
  unfold applyButtonClick. cbn [snd].
  unfold itemChanged. cbn [model].
  destruct (model w !! i) as [row |]; [| now repeat split].
  unfold updateField.
  repeat match goal with
         | |- context [if ?b then _ else _] => destruct b
         end;
    match goal with |- context [updateMarker ?w1] =>
      destruct (updateMarker_returns w1) as (marker & ->) end;
    now repeat split.
Qed.

End SettingsProperties.

Lemma itemChanged_keeps_selection_ticked_example :
  (@Settings.itemChanged sample_RFTools sample_Formatting 0
     (Settings.mkWindow ["vswr"%string] ["vswr"%string]
        (Settings.build_model ["vswr"%string]) (new_marker 123456000)
        [] [] None false)).1
  = None.
Proof.
  apply (@itemChanged_keeps_selection_ticked sample_RFTools sample_Formatting
           0%nat
           (Settings.mkItem "Actual frequency" "actualfreq" false)
           (Settings.mkWindow ["vswr"%string] ["vswr"%string]
              (Settings.build_model ["vswr"%string]) (new_marker 123456000)
              [] [] None false)).
  - reflexivity.
  - apply (bool_decide_unpack _). vm_compute. exact I.
  - reflexivity.
Defined.

(** The window opened with nothing stored: the default field names. *)
Lemma open_window_selection_ticked_example :
  (@Settings.open_window sample_RFTools sample_Formatting
     None [[]; ["s11q"%string]] []).1
  = None.
Proof.
  apply (@open_window_selection_ticked sample_RFTools sample_Formatting
           None [[]; ["s11q"%string]] []).
  - apply (bool_decide_unpack _). vm_compute. exact I.
  - apply Forall_forall. apply (bool_decide_unpack _). vm_compute. exact I.
Defined.

(** ** The rows of the form *)

Section FormProperties.
Import FieldSelection.

Lemma filter_known_all (l : list string) :
  Forall (fun f => in_fields f = true) l ->
  filter (fun f => in_fields f = true) l = l.
Proof.
  induction 1 as [| x l Hx _ IH]; [reflexivity |].
  now rewrite filter_cons_True, IH.
Qed.

(** X17. [buildForm] gives every selected field that is a field of
    [LABELS] one row, in the order of the selection, the left form first;
    names that are no fields get no row. With three names or fewer the
    right form stays empty. *)
Theorem rows_partition :
  forall sel : list string,
    (rows sel).1 ++ (rows sel).2 = filter (fun f => in_fields f = true) sel /\
    ((length sel <= 3)%nat -> (rows sel).2 = []).
Proof.
  intros sel. unfold rows.
  destruct (Nat.leb_spec (length sel) 3) as [Hle | Hgt]; simpl.
  - split; [apply app_nil_r | reflexivity].
  - split; [| lia]. now rewrite <- filter_app, take_drop.
Qed.

(** X18. When more than three fields are selected and all are fields of
    [LABELS], the left form takes the first half, rounded up, and the
    right form the rest: the left form is as long as the right one or one
    row longer. *)
Theorem rows_balanced :
  forall sel : list string,
    (3 < length sel)%nat ->
    Forall (fun f => in_fields f = true) sel ->
    (rows sel).1 = take ((length sel + 1) / 2) sel /\
    (rows sel).2 = drop ((length sel + 1) / 2) sel /\
    (length (rows sel).2 <= length (rows sel).1 <= length (rows sel).2 + 1)%nat.
Proof.
  intros sel Hlen Hknown. unfold rows.
  destruct (Nat.leb_spec (length sel) 3) as [Hle | _]; [lia |].
  cbn [fst snd].
  rewrite !filter_known_all by (auto using Forall_take, Forall_drop).
  split; [reflexivity |]. split; [reflexivity |].
  rewrite length_take, length_drop.
  pose proof (Nat.div_mod_eq (length sel + 1) 2) as Hdiv.
  pose proof (Nat.mod_upper_bound (length sel + 1) 2). lia.
Qed.

Lemma rows_balanced_example :
  (rows default_field_names).1
  = take ((length default_field_names + 1) / 2) default_field_names.
Proof.
  apply (rows_balanced default_field_names).
  - vm_compute. lia.
  - apply (bool_decide_unpack _). vm_compute. exact I.
Defined.

(** The selection of another marker is as before. *)
Lemma selection_set_other (a b fields : nat) (w : world) :
  wf w -> a <> b ->
  selection b (setFieldSelection a fields w) = selection b w.
Proof.
  intros Hwf Hab.
  pose proof (is_fresh (dom (lists w))) as Hfresh.
  pose proof (fieldSelection_alive b w Hwf) as Hb.
  unfold selection, deref.
  rewrite fieldSelection_set_other, lists_set by assumption.
  rewrite lookup_insert_ne; [reflexivity |].
  intros E. rewrite E in Hfresh. contradiction.
Qed.

(** X19. [setFieldSelection] rebuilds the form of its marker from the new
    selection, and leaves the forms of the other markers, which still match
    their selections if they did. *)
Theorem setFieldSelection_forms_current :
  forall (w : world) (a b fields : nat),
    wf w -> a <> b ->
    forms w !! b = Some (rows (selection b w)) ->
    forms (setFieldSelection a fields w) !! a
    = Some (rows (selection a (setFieldSelection a fields w))) /\
    selection a (setFieldSelection a fields w) = deref w fields /\
    forms (setFieldSelection a fields w) !! b
    = Some (rows (selection b (setFieldSelection a fields w))).
Proof.
  intros w a b fields Hwf Hab Hb.
  rewrite (selection_set_other a b) by assumption.
  assert (Hform : forall (c : nat) (v : world),
             forms (buildForm c v) !! c = Some (rows (selection c v))).
  { intros c v. unfold buildForm. cbn [forms]. apply lookup_insert_eq. }
  split; [| split].
  - unfold setFieldSelection. rewrite Hform. reflexivity.
  - unfold selection, deref.
    rewrite fieldSelection_set_self, lists_set. now rewrite lookup_insert_eq.
  - unfold setFieldSelection, buildForm. cbn [forms].
    now rewrite lookup_insert_ne.
Qed.

End FormProperties.

Lemma setFieldSelection_forms_current_example :
  FieldSelection.forms
    (FieldSelection.setFieldSelection 1 0
       (FieldSelection.init 2 (FieldSelection.init 1 FieldSelection.class_body)))
  !! 1%nat
  = Some
      (FieldSelection.rows
         (FieldSelection.selection 1
            (FieldSelection.setFieldSelection 1 0
               (FieldSelection.init 2
                  (FieldSelection.init 1 FieldSelection.class_body))))).
Proof.
  apply (setFieldSelection_forms_current
           (FieldSelection.init 2 (FieldSelection.init 1 FieldSelection.class_body))
           1%nat 2%nat 0%nat).
  - apply wf_init, wf_init, wf_class_body.
  - discriminate.
  - reflexivity.
Defined.

(** ** Resolving and labelling twice *)

(** The labels have no part in [findLocation]: they are carried through. *)
Lemma findLocation_carries_labels (data : list Datapoint) (self : Marker)
      (lbl : gmap string string) :
  findLocation data (with_label self lbl)
  = ((findLocation data self).1, with_label (findLocation data self).2 lbl).
Proof.
  destruct self as [f loc input positive lbl0].
  set (self := mkMarker f loc input positive lbl0).
  destruct (decide (f = 0)) as [Hz | Hnz].
  { rewrite !findLocation_zero by assumption. reflexivity. }
  destruct data as [| a [| b rest]].
  - rewrite !findLocation_empty. reflexivity.
  - rewrite !findLocation_single by assumption. reflexivity.
  - assert (Hlen : (2 <= length (a :: b :: rest))%nat) by (simpl; lia).
    remember (a :: b :: rest) as data eqn:Edata. clear Edata.
    destruct (ends_of_data data Hlen) as (d0 & d1 & dp & dl & H0 & H1 & Hp & Hl).
    rewrite (findLocation_many data self d0 d1 dp dl) by assumption.
    rewrite (findLocation_many data (with_label self lbl) d0 d1 dp dl)
      by assumption.
    change (frequency (with_label self lbl)) with (frequency self).
    destruct (out_of_bounds _ _ _ _ _); [reflexivity |].
    destruct (scan (frequency self) data 0 (freq dl)) as [[i item] |];
      reflexivity.
Qed.

Section Twice.
Context `{RFTools} `{Formatting}.

(** [updateLabels] with S21 data of another length, label by label: the
    texts of the S11 fields are new, the same whatever was held before. *)
Lemma updateLabels_labels_mismatched
      (s11data s21data : list Datapoint) (self : Marker)
      (lbl0 : gmap string string) :
  location self <> -1 ->
  - Z.of_nat (length s11data) <= location self < Z.of_nat (length s11data) ->
  length s21data <> length s11data ->
  exists lbl lbl' : gmap string string,
    updateLabels s11data s21data self = (Ok tt, with_label self lbl) /\
    updateLabels s11data s21data (with_label self lbl0)
    = (Ok tt, with_label self lbl') /\
    forall k : string,
      k ∈ fieldname <$> LABELS ->
      k ∉ ["s21gain"; "s21phase"; "s21groupdelay"]%string ->
      lbl' !! k = lbl !! k.
Proof.
  destruct self as [f loc input positive lbl1].
  cbn [location]. intros Hloc Hrange Hlen.
  destruct (getitem_in_range s11data loc Hrange) as [s11 Hs11].
  unfold updateLabels. run_labels.
  destruct (Z.eqb_spec loc (-1)) as [E | _]; [contradiction |].
  rewrite Hs11. run_labels.
  destruct (Z.eqb_spec (Z.of_nat (length s21data)) (Z.of_nat (length s11data)))
    as [Heq | _]; [lia |].
  run_labels. eexists _, _. split; [reflexivity |]. split; [reflexivity |].
  intros k Hk Hs21.
  repeat (let Hne := fresh "Hne" in apply not_elem_of_cons in Hs21 as [Hne Hs21]).
  each_fieldname Hk; try congruence;
    (etrans; [rewrite ?lookup_insert_ne by done; apply lookup_insert_eq |];
     symmetry; label_lookup).
Qed.

(** X20. Resolving, clearing and labelling a second time on the same data
    changes nothing: the attributes after the three steps are a fixed
    point of them. *)
Theorem refresh_idempotent :
  forall (data11 data21 : list Datapoint) (self : Marker),
    length data11 <> 1%nat ->
    refresh data11 data21 (refresh data11 data21 self).2
    = refresh data11 data21 self.
Proof.
  intros data11 data21 self H1.
  destruct (refresh_steps data11 data21 self H1)
    as (loc & next & prev & lblR & E & Efind & Hloc & Hin & Hout).
  set (base := resolved self loc next prev) in *.
  (* the first run *)
  assert (Hfirst : exists lbl1 : gmap string string,
             refresh data11 data21 self = (Ok tt, with_label base lbl1) /\
             forall (lblR' : gmap string string),
               (forall k, k ∈ fieldname <$> LABELS -> lblR' !! k = Some ""%string) ->
               (forall k, k ∉ fieldname <$> LABELS -> lblR' !! k = lbl1 !! k) ->
               updateLabels data11 data21 (with_label base lblR')
               = (Ok tt, with_label base lbl1)).
  { rewrite E. destruct Hloc as [Hu | Hrange].
    - exists lblR. rewrite updateLabels_unset by (subst loc; reflexivity).
      split; [reflexivity |]. intros lblR' Hin' Hout'.
      rewrite updateLabels_unset by (subst loc; reflexivity).
      f_equal. f_equal. apply map_eq. intros k.
      destruct (decide (k ∈ fieldname <$> LABELS)) as [Hk | Hk].
      + now rewrite Hin', Hin.
      + now apply Hout'.
    - assert (Hl : location (with_label base lblR) <> -1) by (simpl; lia).
      assert (Hr : - Z.of_nat (length data11) <= location (with_label base lblR)
                   < Z.of_nat (length data11)) by (simpl; lia).
      destruct (decide (length data21 = length data11)) as [Hlen | Hlen].
      + destruct (updateLabels_labels data11 data21 _ Hl Hr)
          as (lbl1 & E1 & Hkeep & _ & Hnew).
        exists lbl1. split; [exact E1 |]. intros lblR' Hin' Hout'.
        destruct (Hnew Hlen lblR') as (lbl' & E' & Hsame).
        change (with_label (with_label base lblR) lblR')
          with (with_label base lblR') in E'.
        rewrite E'. f_equal. f_equal. apply map_eq. intros k.
        destruct (decide (k ∈ fieldname <$> LABELS)) as [Hk | Hk];
          [now apply Hsame |].
        destruct (updateLabels_labels data11 data21 (with_label base lblR'))
          as (lbl'' & E'' & Hkeep' & _); [simpl; lia | simpl; lia |].
        rewrite E' in E''. injection E'' as ->.
        rewrite (Hkeep' k Hk). now apply Hout'.
      + destruct (updateLabels_labels data11 data21 _ Hl Hr)
          as (lbl1 & E1 & Hkeep & Hs21 & _).
        exists lbl1. split; [exact E1 |]. intros lblR' Hin' Hout'.
        destruct (updateLabels_labels_mismatched data11 data21 _ lblR' Hl Hr Hlen)
          as (lblx & lbl' & Ex & E' & Hsame).
        rewrite E1 in Ex. injection Ex as <-.
        change (with_label (with_label base lblR) lblR')
          with (with_label base lblR') in E'.
        rewrite E'. f_equal. f_equal. apply map_eq. intros k.
        destruct (updateLabels_labels data11 data21 (with_label base lblR'))
          as (lbl'' & E'' & Hkeep' & Hs21' & _); [simpl; lia | simpl; lia |].
        rewrite E' in E''. injection E'' as <-.
        destruct (decide (k ∈ fieldname <$> LABELS)) as [Hk | Hk].
        * destruct (decide (k ∈ ["s21gain"; "s21phase"; "s21groupdelay"]%string))
            as [Hs | Hs]; [| now apply Hsame].
          rewrite (Hs21' Hlen k Hs), (Hs21 Hlen k Hs).
          cbn [label with_label]. now rewrite Hin', Hin.
        * rewrite (Hkeep' k Hk). cbn [label with_label]. now apply Hout'. }
  destruct Hfirst as (lbl1 & Efirst & Hagain).
  rewrite Efirst. cbn [snd].
  (* the second run *)
  assert (Efind2 : findLocation data11 base = (Ok tt, base))
    by (unfold base; rewrite findLocation_forgets; exact Efind).
  rewrite refresh_unfold, findLocation_carries_labels, Efind2. cbn [fst snd].
  destruct (resetLabels_labels (with_label base lbl1))
    as (lblR' & -> & Hin' & Hout').
  change (with_label (with_label base lbl1) lblR') with (with_label base lblR').
  apply Hagain; assumption.
Qed.

End Twice.

Lemma refresh_idempotent_example :
  @refresh sample_RFTools sample_Formatting exampleData11 exampleData21
    (@refresh sample_RFTools sample_Formatting exampleData11 exampleData21
       (new_marker 123456000)).2
  = @refresh sample_RFTools sample_Formatting exampleData11 exampleData21
      (new_marker 123456000).
Proof.
  apply (@refresh_idempotent sample_RFTools sample_Formatting).
  discriminate.
Defined.

(** ** The bounds test as Python computes it *)

Lemma round53_small (halves : Z) :
  Z.abs halves < 2 ^ 53 -> round53 halves = Finite halves.
Proof.
  intros Hsmall. unfold round53.
  destruct (Z.ltb_spec (Z.abs halves) (2 ^ 53)); [reflexivity | lia].
Qed.

(** X22. For a target and samples below 2^51 in magnitude the bounds test
    of [findLocation], computed in binary64 as Python does, raises no
    [OverflowError] and has the value of the exact comparison that the
    model of [findLocation] makes. *)
Theorem out_of_bounds_binary64_exact :
  forall (data : list Datapoint) (f : Z) (d0 d1 dp dl : Datapoint),
    exact_range data f ->
    data !! 0%nat = Some d0 -> data !! 1%nat = Some d1 ->
    data !! (length data - 2)%nat = Some dp ->
    data !! (length data - 1)%nat = Some dl ->
    out_of_bounds_binary64 f (freq d0) (freq d1) (freq dp) (freq dl)
    = Some (out_of_bounds f (freq d0) (freq d1) (freq dp) (freq dl)).
Proof.
  intros data f d0 d1 dp dl [Hf Hdata] H0 H1 Hp Hl.
  rewrite Forall_forall in Hdata.
  assert (B0 : Z.abs (freq d0) < 2 ^ 51) by eauto using list_elem_of_lookup_2.
  assert (B1 : Z.abs (freq d1) < 2 ^ 51) by eauto using list_elem_of_lookup_2.
  assert (Bp : Z.abs (freq dp) < 2 ^ 51) by eauto using list_elem_of_lookup_2.
  assert (Bl : Z.abs (freq dl) < 2 ^ 51) by eauto using list_elem_of_lookup_2.
  change (2 ^ 51) with 2251799813685248 in *.
  assert (Hsmall : forall k : Z,
             Z.abs k < 9007199254740992 -> round53 k = Finite k)
    by exact round53_small.
  unfold out_of_bounds_binary64, int_div_2, float_of_int.
  rewrite !Hsmall by lia. cbn [mbind option_bind].
  rewrite !Hsmall by lia. cbn [float_lt_int float_gt_int].
  unfold out_of_bounds. rewrite Qlt_bool_half_l, Qlt_bool_half_r.
  destruct (2 * f + (freq d1 - freq d0) <? 2 * freq d0); reflexivity.
Qed.

Lemma out_of_bounds_binary64_exact_example :
  out_of_bounds_binary64 200000000 123000000 123500000 123500000 124000000
  = Some (out_of_bounds 200000000 123000000 123500000 123500000 124000000).
Proof.
  apply (out_of_bounds_binary64_exact exampleData11 200000000
           (mkDatapoint 123000000 0.89 (-0.11))
           (mkDatapoint 123500000 0.9 (-0.1))
           (mkDatapoint 123500000 0.9 (-0.1))
           (mkDatapoint 124000000 0.91 (-0.95))).
  - exact_range_by_computation.
  - reflexivity.
  - reflexivity.
  - reflexivity.
  - reflexivity.
Defined.

(** Beyond that range the two differ. With samples at 2^53+1 and 2^53+3
    and target 2^53 the sum [self.frequency + lower_stepsize/2] rounds
    from 2^53+1 to 2^53, and Python finds the target out of bounds where
    the exact comparison does not. *)
Example out_of_bounds_binary64_rounds :
  out_of_bounds_binary64 (2 ^ 53) (2 ^ 53 + 1) (2 ^ 53 + 3)
                         (2 ^ 53 + 1) (2 ^ 53 + 3)
  = Some true /\
  out_of_bounds (2 ^ 53) (2 ^ 53 + 1) (2 ^ 53 + 3) (2 ^ 53 + 1) (2 ^ 53 + 3)
  = false.
Proof. split; vm_compute; reflexivity. Qed.

(** A target beyond the float range makes the conversion raise. *)
Example out_of_bounds_binary64_overflows :
  out_of_bounds_binary64 (10 ^ 400) 123000000 123500000 123500000 124000000
  = None.
Proof. vm_compute. reflexivity. Qed.

(** [round53] against the floats of the machine: the conversion of an
    [int], its half, and the sum of the two, on numbers around the powers
    of two where rounding sets in. *)
Example round53_on_the_machine :
  let numbers :=
    [ 0; 1; 3; 123456000; 2 ^ 53 - 1; 2 ^ 53; 2 ^ 53 + 1; 2 ^ 53 + 2;
      2 ^ 53 + 3; 2 ^ 54 + 1; 2 ^ 54 + 2; 2 ^ 54 + 3; 2 ^ 54 + 5; 2 ^ 54 + 6;
      2 ^ 55 - 1; 2 ^ 57 - 3; 2 ^ 60 + 12345; 2 ^ 61 + 2 ^ 8;
      2 ^ 61 + 3 * 2 ^ 8; 2 ^ 62 + 2 ^ 9; 2 ^ 62 + 2 ^ 9 + 1; 2 ^ 62 - 1 ] in
  Forall (fun z =>
            round53 (2 * z) = from_option Finite (Infinity false)
                                (halves_of_float (machine_float z)) /\
            round53 z = from_option Finite (Infinity false)
                          (halves_of_float (machine_float z / 2)%float))
         numbers /\
  Forall (fun a =>
            Forall (fun b =>
                      match float_of_int a, int_div_2 b with
                      | Some x, Some y =>
                          round53 (x + y)
                          = from_option Finite (Infinity false)
                              (halves_of_float
                                 (machine_float a + machine_float b / 2)%float)
                      | _, _ => False
                      end)
                   [1; 2; 3; 2 ^ 53 - 1; 2 ^ 53 + 1; 2 ^ 54 + 2])
         [1; 123456000; 2 ^ 52 - 1; 2 ^ 52; 2 ^ 52 + 1; 2 ^ 53 + 1].
Proof.
  split.
  - repeat (apply Forall_cons_2; [split; vm_compute; reflexivity |]).
    apply Forall_nil_2.
  - repeat (apply Forall_cons_2;
            [cbv beta;
             repeat (apply Forall_cons_2; [vm_compute; reflexivity |]);
             apply Forall_nil_2 |]).
    apply Forall_nil_2.
Qed.
